(** * The Redshift snapshot copy grant resource

    A shallow embedding of [aws/resource_aws_redshift_snapshot_copy_grant.go]:
    the five lifecycle callbacks (create, read, update, delete, exists), the
    two polling helpers and the paginated lookup by name, followed by the
    properties they satisfy.

    Conventions.
    - A Go result made of a pointer and an [error] is a pair of options:
      [None] is [nil].
    - The Redshift service is an interface ([Redshift]): every API call is a
      transition of an abstract connection state.  The model keeps, next to
      that state, the list of the calls made so far with their answers.
    - The paginated lookup is a general recursion in Go; here it recurses on
      a page budget [fuel], and every function that reaches it returns an
      [option]: [None] says the call has not returned within that budget.
    - [log.Printf] has no effect on the values computed and is left out. *)

From stdpp Require Import base option list strings gmap.
From Stdlib Require Import ZArith Lia.

Open Scope string_scope.
Open Scope list_scope.

(** ** Values of the AWS SDK *)

(** [redshift.Tag]. *)
Record Tag := mkTag { Key : string; Value : string }.

(** [redshift.SnapshotCopyGrant].  The SDK types every field as a pointer.
    The grant name is dereferenced by the code wherever it is read, and the
    service fills it in for every grant it lists: it is a plain string.
    The key id is passed around as a pointer: it is an option. *)
Record SnapshotCopyGrant := mkGrant {
  KmsKeyId : option string;
  SnapshotCopyGrantName : string;
  Tags : list Tag
}.

(** [redshift.CreateSnapshotCopyGrantInput]. *)
Record CreateSnapshotCopyGrantInput := mkCreateInput {
  create_KmsKeyId : option string;
  create_SnapshotCopyGrantName : option string;
  create_Tags : list Tag
}.

(** [redshift.CreateSnapshotCopyGrantOutput].  The grant of a successful
    answer is read for the log only. *)
Record CreateSnapshotCopyGrantOutput := mkCreateOutput {
  create_SnapshotCopyGrant : SnapshotCopyGrant
}.

(** [redshift.DeleteSnapshotCopyGrantInput]. *)
Record DeleteSnapshotCopyGrantInput := mkDeleteInput {
  delete_SnapshotCopyGrantName : option string
}.

(** [redshift.DescribeSnapshotCopyGrantsInput]. *)
Record DescribeSnapshotCopyGrantsInput := mkDescribeInput {
  describe_Marker : option string;
  describe_MaxRecords : option Z;
  describe_SnapshotCopyGrantName : option string
}.

(** [redshift.DescribeSnapshotCopyGrantsOutput]. *)
Record DescribeSnapshotCopyGrantsOutput := mkDescribeOutput {
  Marker : option string;
  SnapshotCopyGrants : list SnapshotCopyGrant
}.

(** [redshift.ErrCodeSnapshotCopyGrantNotFoundFault]. *)
Definition ErrCodeSnapshotCopyGrantNotFoundFault : string :=
  "SnapshotCopyGrantNotFoundFault".

(** ** Errors *)

(** What a call of the SDK client can fail with: an [awserr.Error], which
    carries a code and a message, or an error of another kind. *)
Inductive sdk_error :=
| AwsError (code message : string)
| RequestError (text : string).

(** The values of Go's [error] that occur in the file.  [fmt.Errorf] is kept
    symbolic: its format string and its arguments. *)
Inductive error :=
| SdkError (e : sdk_error)
| NotFoundError (Message : string) (LastRequest : DescribeSnapshotCopyGrantsInput)
| TimeoutError
| Errorf (format : string) (args : list fmt_arg)
with fmt_arg :=
| ArgString (s : string)
| ArgError (e : error).

(** The type assertion of [err] to a pointer to [resource.NotFoundError]. *)
Definition is_NotFoundError (e : error) : bool :=
  match e with
  | NotFoundError _ _ => true
  | _ => false
  end.

(** [strings.Contains]. *)
Fixpoint strings_Contains (s substr : string) : bool :=
  String.prefix substr s ||
  match s with
  | EmptyString => false
  | String _ s' => strings_Contains s' substr
  end.

(** Modelled from the spec: [isAWSErr] lives in the provider's [awserr.go],
    outside this file.  The error is an AWS error with the given vendor
    code, and its message contains the given text. *)
Definition isAWSErr (err : option error) (code message : string) : bool :=
  match err with
  | Some (SdkError (AwsError c m)) => String.eqb c code && strings_Contains m message
  | _ => false
  end.

(** Modelled from the spec: [isResourceTimeoutError] lives in the provider's
    [awserr.go], outside this file.  It recognises the timeout error of
    [resource.Retry], which says that the time has run out before a call
    of the retried function has completed. *)
Definition isResourceTimeoutError (err : option error) : bool :=
  match err with
  | Some TimeoutError => true
  | _ => false
  end.

(** ** The service *)

(** The answer to [DescribeSnapshotCopyGrants]. *)
Definition DescribeResult : Type := sdk_error + DescribeSnapshotCopyGrantsOutput.

(** The methods of [*redshift.Redshift] that the resource calls, as
    transitions of the connection state [conn].  [RedshiftUpdateTags] is the
    tag mutation of the [keyvaluetags] package (outside this file): it
    is given the ARN, the old tags and the new tags, and it is a parameter
    of the development like the service itself. *)
Class Redshift (conn : Type) := {
  CreateSnapshotCopyGrant :
    CreateSnapshotCopyGrantInput -> conn ->
    (sdk_error + CreateSnapshotCopyGrantOutput) * conn;
  DeleteSnapshotCopyGrant :
    DeleteSnapshotCopyGrantInput -> conn -> option sdk_error * conn;
  DescribeSnapshotCopyGrants :
    DescribeSnapshotCopyGrantsInput -> conn -> DescribeResult * conn;
  RedshiftUpdateTags :
    string -> gmap string string -> gmap string string -> conn ->
    option error * conn
}.

(** One API call with its answer. *)
Inductive Call :=
| CallCreate (input : CreateSnapshotCopyGrantInput)
             (r : sdk_error + CreateSnapshotCopyGrantOutput)
| CallDelete (input : DeleteSnapshotCopyGrantInput) (r : option sdk_error)
| CallDescribe (input : DescribeSnapshotCopyGrantsInput) (r : DescribeResult)
| CallUpdateTags (identifier : string) (o n : gmap string string)
                 (r : option error).

(** The connection and the calls made through it, oldest first. *)
Record World (conn : Type) := mkWorld {
  remote : conn;
  calls : list Call
}.
Arguments mkWorld {conn} _ _.
Arguments remote {conn} _.
Arguments calls {conn} _.

Section Calls.
Context {conn : Type} `{Redshift conn}.

Definition call_Create (input : CreateSnapshotCopyGrantInput) (w : World conn)
  : (sdk_error + CreateSnapshotCopyGrantOutput) * World conn :=
  let '(r, c) := CreateSnapshotCopyGrant input (remote w) in
  (r, mkWorld c (calls w ++ [CallCreate input r])).

Definition call_Delete (input : DeleteSnapshotCopyGrantInput) (w : World conn)
  : option sdk_error * World conn :=
  let '(r, c) := DeleteSnapshotCopyGrant input (remote w) in
  (r, mkWorld c (calls w ++ [CallDelete input r])).

Definition call_Describe (input : DescribeSnapshotCopyGrantsInput) (w : World conn)
  : DescribeResult * World conn :=
  let '(r, c) := DescribeSnapshotCopyGrants input (remote w) in
  (r, mkWorld c (calls w ++ [CallDescribe input r])).

Definition call_UpdateTags (identifier : string) (o n : gmap string string)
  (w : World conn) : option error * World conn :=
  let '(r, c) := RedshiftUpdateTags identifier o n (remote w) in
  (r, mkWorld c (calls w ++ [CallUpdateTags identifier o n r])).
End Calls.

(** ** The lookup by name *)

(** [getAwsRedshiftSnapshotCopyGrant]: the first grant of the slice whose
    name is [grantName], [nil] when there is none. *)
Fixpoint getAwsRedshiftSnapshotCopyGrant (grants : list SnapshotCopyGrant)
  (grantName : string) : option SnapshotCopyGrant :=
  match grants with
  | [] => None
  | grant :: rest =>
      if String.eqb (SnapshotCopyGrantName grant) grantName then Some grant
      else getAwsRedshiftSnapshotCopyGrant rest grantName
  end.

(** The request built at the head of [findAwsRedshiftSnapshotCopyGrant]:
    the marker and the grant name are mutually exclusive. *)
Definition describe_input (grantName : string) (marker : option string)
  : DescribeSnapshotCopyGrantsInput :=
  match marker with
  | Some m => mkDescribeInput (Some m) (Some 100%Z) None
  | None => mkDescribeInput None (Some 100%Z) (Some grantName)
  end.

(** The result of a lookup: [(grant, err)]. *)
Definition Found : Type := option SnapshotCopyGrant * option error.

Section Lookup.
Context {conn : Type} `{Redshift conn}.

(** [findAwsRedshiftSnapshotCopyGrant]: describe one page, return the
    grant when the page has it, follow the marker when the page has one,
    report [NotFoundError] otherwise. *)
Fixpoint findAwsRedshiftSnapshotCopyGrant (fuel : nat) (w : World conn)
  (grantName : string) (marker : option string)
  : option (Found * World conn) :=
  match fuel with
  | O => None
  | S fuel' =>
      let input := describe_input grantName marker in
      let '(r, w') := call_Describe input w in
      match r with
      | inl err => Some ((None, Some (SdkError err)), w')
      | inr out =>
          match getAwsRedshiftSnapshotCopyGrant (SnapshotCopyGrants out) grantName with
          | Some grant => Some ((Some grant, None), w')
          | None =>
              match Marker out with
              | Some m =>
                  findAwsRedshiftSnapshotCopyGrant fuel' w' grantName (Some m)
              | None =>
                  Some ((None,
                         Some (NotFoundError
                                 ("[DEBUG] Grant " +:+ grantName +:+ " not found")
                                 input)), w')
              end
          end
      end
  end.
End Lookup.

(** ** Retrying *)

(** [resource.RetryError]. *)
Record RetryError := mkRetryError { Err : error; Retryable : bool }.

(** Modelled from the spec: [resource.RetryableError] and
    [resource.NonRetryableError] belong to the plugin SDK, outside this
    file.  They tag an error as one to retry on or one to stop on; a [nil]
    error gives a [nil] result. *)
Definition RetryableError (err : option error) : option RetryError :=
  match err with
  | Some e => Some (mkRetryError e true)
  | None => None
  end.

Definition NonRetryableError (err : option error) : option RetryError :=
  match err with
  | Some e => Some (mkRetryError e false)
  | None => None
  end.

(** [time.Duration] counts nanoseconds. *)
Definition Minute : Z := 60 * 1000000000.

(** The clock of the host: how many calls of a retried function fit in a
    duration.  Real time is not modelled beyond this number. *)
Class Clock := { attempts_within : Z -> nat }.

Section Retry.
Context {St : Type}.

(** The retried function works on the variables it captures and on the
    connection, both in [St]. *)
Definition RetryFunc : Type := St -> option (option RetryError * St).

(** Modelled from the spec: [resource.Retry] belongs to the plugin SDK,
    outside this file.  It calls [f] again as long as [f] answers with a
    retryable error; it stops with [nil] when [f] answers [nil] and with
    the error of [f] when that error is not retryable.  When the time has
    run out it hands back the error of the last call of [f], and a timeout
    error only when no call of [f] has completed.  [retry_loop resultErr n]
    is the retrying with room for [n] more calls of [f], [resultErr] being
    the error of the last call, [nil] before the first. *)
Fixpoint retry_loop (resultErr : option error) (n : nat) (f : RetryFunc) (st : St)
  : option (option error * St) :=
  match n with
  | O => Some (Some (default TimeoutError resultErr), st)
  | S n' =>
      match f st with
      | None => None
      | Some (None, st') => Some (None, st')
      | Some (Some rerr, st') =>
          if Retryable rerr then retry_loop (Some (Err rerr)) n' f st'
          else Some (Some (Err rerr), st')
      end
  end.

(** The retrying has come from [st] with [n] calls left to [st'] with
    [n'] calls left: every call in between asked for a retry. *)
Inductive retrying (f : RetryFunc) : nat -> St -> nat -> St -> Prop :=
| retrying_here n st : retrying f n st n st
| retrying_step n st rerr st1 n' st' :
    f st = Some (Some rerr, st1) ->
    Retryable rerr = true ->
    retrying f n st1 n' st' ->
    retrying f (S n) st n' st'.

(** Modelled from the spec: [resource.Retry] with its timeout, which the
    clock turns into the number of calls there is room for. *)
Definition Retry `{Clock} (timeout : Z) (f : RetryFunc) (st : St)
  : option (option error * St) :=
  retry_loop None (attempts_within timeout) f st.
End Retry.

Section Polling.
Context {conn : Type} `{Redshift conn} `{Clock}.

(** The variables of a polling helper while it retries: the [grant] that
    the retried function assigns, and the connection. *)
Definition Poll : Type := option SnapshotCopyGrant * World conn.

(** The function that [findAwsRedshiftSnapshotCopyGrantWithRetry] hands to
    [resource.Retry]. *)
Definition findWithRetry_func (fuel : nat) (grantName : string)
  : @RetryFunc Poll :=
  fun st =>
    match findAwsRedshiftSnapshotCopyGrant fuel (snd st) grantName None with
    | None => None
    | Some ((grant, err), w) =>
        match err with
        | Some e =>
            if is_NotFoundError e
            then Some (RetryableError (Some e), (grant, w))
            else Some (NonRetryableError err, (grant, w))
        | None => Some (None, (grant, w))
        end
    end.

(** [findAwsRedshiftSnapshotCopyGrantWithRetry]. *)
Definition findAwsRedshiftSnapshotCopyGrantWithRetry (fuel : nat)
  (w : World conn) (grantName : string) : option (Found * World conn) :=
  match Retry (3 * Minute) (findWithRetry_func fuel grantName) (None, w) with
  | None => None
  | Some (err, (grant, w1)) =>
      let final :=
        if isResourceTimeoutError err
        then findAwsRedshiftSnapshotCopyGrant fuel w1 grantName None
        else Some ((grant, err), w1) in
      match final with
      | None => None
      | Some ((grant, Some e), w2) =>
          Some ((None,
                 Some (Errorf "Error finding snapshot copy grant: %s" [ArgError e])),
                w2)
      | Some ((grant, None), w2) => Some ((grant, None), w2)
      end
  end.

(** The function that [waitForAwsRedshiftSnapshotCopyGrantToBeDeleted]
    hands to [resource.Retry]. *)
Definition waitToBeDeleted_func (fuel : nat) (grantName : string)
  : @RetryFunc Poll :=
  fun st =>
    match findAwsRedshiftSnapshotCopyGrant fuel (snd st) grantName None with
    | None => None
    | Some ((grant, err), w) =>
        if match err with
           | Some _ => isAWSErr err ErrCodeSnapshotCopyGrantNotFoundFault ""
           | None => false
           end
        then Some (None, (grant, w))
        else
          match grant with
          | Some g =>
              Some (RetryableError
                      (Some (Errorf
                               "[DEBUG] Grant still exists while expected to be deleted: %s"
                               [ArgString (SnapshotCopyGrantName g)])),
                    (grant, w))
          | None => Some (NonRetryableError err, (grant, w))
          end
    end.

(** [waitForAwsRedshiftSnapshotCopyGrantToBeDeleted]. *)
Definition waitForAwsRedshiftSnapshotCopyGrantToBeDeleted (fuel : nat)
  (w : World conn) (grantName : string) : option (option error * World conn) :=
  let wrap (err : option error) (w' : World conn) :=
    match err with
    | Some e =>
        (Some (Errorf "Error waiting for snapshot copy grant to be deleted: %s"
                      [ArgError e]), w')
    | None => (None, w')
    end in
  match Retry (3 * Minute) (waitToBeDeleted_func fuel grantName) (None, w) with
  | None => None
  | Some (err, (grant, w1)) =>
      if isResourceTimeoutError err then
        match findAwsRedshiftSnapshotCopyGrant fuel w1 grantName None with
        | None => None
        | Some ((grant, err), w2) =>
            if isAWSErr err ErrCodeSnapshotCopyGrantNotFoundFault ""
            then Some (None, w2)
            else Some (wrap err w2)
        end
      else Some (wrap err w1)
  end.
End Polling.

(** ** The resource *)

(** The attributes that the schema of the resource declares: three strings
    and the map of tags.  An attribute that is not set reads as the zero
    value of its type. *)
Record Attributes := mkAttributes {
  arn : string;
  snapshot_copy_grant_name : string;
  kms_key_id : string;
  tags : gmap string string
}.

(** [schema.ResourceData], as far as the callbacks use it: the ID, the
    attributes of the prior state, and the attributes that [Get] reads and
    [Set] writes (the configuration laid over the prior state). *)
Record ResourceData := mkResourceData {
  Id : string;
  prior : Attributes;
  attrs : Attributes
}.

Definition SetId (v : string) (d : ResourceData) : ResourceData :=
  mkResourceData v (prior d) (attrs d).

Definition Set_arn (v : string) (d : ResourceData) : ResourceData :=
  let a := attrs d in
  mkResourceData (Id d) (prior d)
    (mkAttributes v (snapshot_copy_grant_name a) (kms_key_id a) (tags a)).

Definition Set_snapshot_copy_grant_name (v : string) (d : ResourceData)
  : ResourceData :=
  let a := attrs d in
  mkResourceData (Id d) (prior d)
    (mkAttributes (arn a) v (kms_key_id a) (tags a)).

(** A [nil] string pointer is stored as the empty string. *)
Definition Set_kms_key_id (v : option string) (d : ResourceData) : ResourceData :=
  let a := attrs d in
  mkResourceData (Id d) (prior d)
    (mkAttributes (arn a) (snapshot_copy_grant_name a) (default "" v) (tags a)).

(** [d.Set("tags", m)] hands back the error of the schema; a map of strings
    is what the schema of [tags] holds, and it is stored as it is. *)
Definition Set_tags (v : gmap string string) (d : ResourceData)
  : option error * ResourceData :=
  let a := attrs d in
  (None,
   mkResourceData (Id d) (prior d)
     (mkAttributes (arn a) (snapshot_copy_grant_name a) (kms_key_id a) v)).

(** [d.GetOk("kms_key_id")]: the value, and whether it is set to something
    else than the zero value. *)
Definition GetOk_kms_key_id (d : ResourceData) : string * bool :=
  let v := kms_key_id (attrs d) in
  (v, negb (String.eqb v "")).

(** [d.HasChange("tags")] and [d.GetChange("tags")]. *)
Definition GetChange_tags (d : ResourceData)
  : gmap string string * gmap string string :=
  (tags (prior d), tags (attrs d)).

Definition HasChange_tags (d : ResourceData) : bool :=
  negb (bool_decide (tags (prior d) = tags (attrs d))).

(** The conversions of the [keyvaluetags] package (outside this file)
    between a map of tags and the tags of the API, and its filter that
    drops the tags AWS manages itself; parameters of the development.
    [keyvaluetags.New] and [Map] change the Go type of the map only. *)
Class KeyValueTags := {
  IgnoreAws : gmap string string -> gmap string string;
  RedshiftTags : gmap string string -> list Tag;
  RedshiftKeyValueTags : list Tag -> gmap string string
}.

(** [AWSClient], without the connection, whose state is in the [World]. *)
Record AWSClient := mkAWSClient {
  partition : string;
  region : string;
  accountid : string
}.

(** [arn.ARN] of the AWS SDK. *)
Record ARN := mkARN {
  Partition : string;
  Service : string;
  Region : string;
  AccountID : string;
  Resource : string
}.

(** Modelled from the spec: [arn.ARN.String] belongs to the AWS SDK, outside
    this file.  The ARN is built from its five parts in the order of the
    AWS format. *)
Definition ARN_String (a : ARN) : string :=
  "arn:" +:+ Partition a +:+ ":" +:+ Service a +:+ ":" +:+ Region a +:+ ":"
  +:+ AccountID a +:+ ":" +:+ Resource a.

(** The result of a callback: its error, the resource data it leaves, and
    the connection. *)
Definition Outcome (conn : Type) : Type :=
  option error * ResourceData * World conn.

Section Resource.
Context {conn : Type} `{Redshift conn} `{Clock} `{KeyValueTags}.

(** [resourceAwsRedshiftSnapshotCopyGrantRead]. *)
Definition resourceAwsRedshiftSnapshotCopyGrantRead (fuel : nat)
  (d : ResourceData) (meta : AWSClient) (w : World conn)
  : option (Outcome conn) :=
  let grantName := Id d in
  match findAwsRedshiftSnapshotCopyGrantWithRetry fuel w grantName with
  | None => None
  | Some ((_, Some err), w1) => Some (Some err, d, w1)
  | Some ((None, None), w1) => Some (None, SetId "" d, w1)
  | Some ((Some grant, None), w1) =>
      let arn :=
        ARN_String
          (mkARN (partition meta) "redshift" (region meta) (accountid meta)
                 ("snapshotcopygrant:" +:+ grantName)) in
      let d := Set_arn arn d in
      let d := Set_kms_key_id (KmsKeyId grant) d in
      let d := Set_snapshot_copy_grant_name (SnapshotCopyGrantName grant) d in
      match Set_tags (IgnoreAws (RedshiftKeyValueTags (Tags grant))) d with
      | (Some err, d) =>
          Some (Some (Errorf "error setting tags: %s" [ArgError err]), d, w1)
      | (None, d) => Some (None, d, w1)
      end
  end.

(** The request that [resourceAwsRedshiftSnapshotCopyGrantCreate] builds
    from the configuration. *)
Definition create_input (d : ResourceData) : CreateSnapshotCopyGrantInput :=
  let grantName := snapshot_copy_grant_name (attrs d) in
  let KmsKeyId :=
    match GetOk_kms_key_id d with
    | (v, true) => Some v
    | (_, false) => None
    end in
  mkCreateInput KmsKeyId (Some grantName) (RedshiftTags (IgnoreAws (tags (attrs d)))).

(** [resourceAwsRedshiftSnapshotCopyGrantCreate]. *)
Definition resourceAwsRedshiftSnapshotCopyGrantCreate (fuel : nat)
  (d : ResourceData) (meta : AWSClient) (w : World conn)
  : option (Outcome conn) :=
  let grantName := snapshot_copy_grant_name (attrs d) in
  let input := create_input d in
  let '(r, w1) := call_Create input w in
  match r with
  | inl err =>
      Some (Some (Errorf "error creating Redshift Snapshot Copy Grant (%s): %s"
                         [ArgString grantName; ArgError (SdkError err)]),
            d, w1)
  | inr out =>
      let d := SetId grantName d in
      resourceAwsRedshiftSnapshotCopyGrantRead fuel d meta w1
  end.

(** [resourceAwsRedshiftSnapshotCopyGrantUpdate]. *)
Definition resourceAwsRedshiftSnapshotCopyGrantUpdate (fuel : nat)
  (d : ResourceData) (meta : AWSClient) (w : World conn)
  : option (Outcome conn) :=
  if HasChange_tags d then
    let '(o, n) := GetChange_tags d in
    match call_UpdateTags (arn (attrs d)) o n w with
    | (Some err, w1) =>
        Some (Some (Errorf "error updating Redshift Snapshot Copy Grant (%s) tags: %s"
                           [ArgString (arn (attrs d)); ArgError err]),
              d, w1)
    | (None, w1) => resourceAwsRedshiftSnapshotCopyGrantRead fuel d meta w1
    end
  else resourceAwsRedshiftSnapshotCopyGrantRead fuel d meta w.

(** [resourceAwsRedshiftSnapshotCopyGrantDelete]. *)
Definition resourceAwsRedshiftSnapshotCopyGrantDelete (fuel : nat)
  (d : ResourceData) (meta : AWSClient) (w : World conn)
  : option (option error * World conn) :=
  let grantName := Id d in
  let deleteInput := mkDeleteInput (Some grantName) in
  let '(r, w1) := call_Delete deleteInput w in
  match r with
  | Some err =>
      if isAWSErr (Some (SdkError err)) ErrCodeSnapshotCopyGrantNotFoundFault ""
      then Some (None, w1)
      else Some (Some (SdkError err), w1)
  | None => waitForAwsRedshiftSnapshotCopyGrantToBeDeleted fuel w1 grantName
  end.

(** [resourceAwsRedshiftSnapshotCopyGrantExists]. *)
Definition resourceAwsRedshiftSnapshotCopyGrantExists (fuel : nat)
  (d : ResourceData) (meta : AWSClient) (w : World conn)
  : option (bool * option error * World conn) :=
  let grantName := Id d in
  match findAwsRedshiftSnapshotCopyGrantWithRetry fuel w grantName with
  | None => None
  | Some ((_, Some err), w1) => Some (false, Some err, w1)
  | Some ((Some _, None), w1) => Some (true, None, w1)
  | Some ((None, None), w1) => Some (false, None, w1)
  end.
End Resource.

(** ** Services to run the model on *)

(** A scripted service: the answers to the three calls that change the
    account are fixed, and the [k]-th call of [DescribeSnapshotCopyGrants]
    is answered with [pages k], whatever it asks.  The connection state is
    the number of describe calls answered so far. *)
Record Script := mkScript {
  on_create : sdk_error + CreateSnapshotCopyGrantOutput;
  on_delete : option sdk_error;
  on_tags : option error;
  pages : nat -> DescribeResult
}.

Definition scripted (s : Script) : Redshift nat := {|
  CreateSnapshotCopyGrant := fun _ k => (on_create s, k);
  DeleteSnapshotCopyGrant := fun _ k => (on_delete s, k);
  DescribeSnapshotCopyGrants := fun _ k => (pages s k, S k);
  RedshiftUpdateTags := fun _ _ _ k => (on_tags s, k)
|}.

(** The answers [l], one per call, and [last] from then on. *)
Definition pages_of (l : list DescribeResult) (last : DescribeResult)
  : nat -> DescribeResult :=
  fun k => nth k l last.

(** The ARN of a grant, as [Read] builds it. *)
Definition grant_arn (meta : AWSClient) (grantName : string) : string :=
  ARN_String
    (mkARN (partition meta) "redshift" (region meta) (accountid meta)
           ("snapshotcopygrant:" +:+ grantName)).

(** The grant has this name. *)
Definition has_name (grantName : string) (g : SnapshotCopyGrant) : bool :=
  String.eqb (SnapshotCopyGrantName g) grantName.

(** A map of tags as the tags of the API, and back. *)
Definition tags_of_map (m : gmap string string) : list Tag :=
  (fun kv => mkTag (fst kv) (snd kv)) <$> map_to_list m.

Definition map_of_tags (l : list Tag) : gmap string string :=
  list_to_map ((fun t => (Key t, Value t)) <$> l).

(** An account that holds its grants in a list.  A describe call lists the
    grants of the requested name on one page, or all of them when no name
    is given; a tag mutation replaces the tags of the grant whose ARN it is
    given. *)
Definition account (meta : AWSClient) : Redshift (list SnapshotCopyGrant) := {|
  CreateSnapshotCopyGrant := fun input c =>
    let name := default "" (create_SnapshotCopyGrantName input) in
    if existsb (has_name name) c
    then (inl (AwsError "SnapshotCopyGrantAlreadyExistsFault" name), c)
    else
      let g := mkGrant (create_KmsKeyId input) name (create_Tags input) in
      (inr (mkCreateOutput g), c ++ [g]);
  DeleteSnapshotCopyGrant := fun input c =>
    let name := default "" (delete_SnapshotCopyGrantName input) in
    if existsb (has_name name) c
    then (None, List.filter (fun g => negb (has_name name g)) c)
    else (Some (AwsError ErrCodeSnapshotCopyGrantNotFoundFault name), c);
  DescribeSnapshotCopyGrants := fun input c =>
    match describe_SnapshotCopyGrantName input with
    | Some name =>
        if existsb (has_name name) c
        then (inr (mkDescribeOutput None (List.filter (has_name name) c)), c)
        else (inl (AwsError ErrCodeSnapshotCopyGrantNotFoundFault name), c)
    | None => (inr (mkDescribeOutput None c), c)
    end;
  RedshiftUpdateTags := fun identifier o n c =>
    (None,
     (fun g =>
        if String.eqb (grant_arn meta (SnapshotCopyGrantName g)) identifier
        then mkGrant (KmsKeyId g) (SnapshotCopyGrantName g) (tags_of_map n)
        else g) <$> c)
|}.

(** The tag conversions, read off the names of the [keyvaluetags]
    functions, to run the model with. *)
Definition plain_tags : KeyValueTags := {|
  IgnoreAws := filter (fun kv => negb (String.prefix "aws:" (fst kv)));
  RedshiftTags := tags_of_map;
  RedshiftKeyValueTags := map_of_tags
|}.

(** A clock that leaves room for [n] attempts, whatever the duration. *)
Definition clock (n : nat) : Clock := {| attempts_within := fun _ => n |}.

(** A connection on which nothing has been called yet. *)
Definition fresh {conn : Type} (c : conn) : World conn := mkWorld c [].

(** Two grants, an error and a client to run the model on. *)
Definition grant_a : SnapshotCopyGrant :=
  mkGrant (Some "key-1") "a" [mkTag "env" "prod"].

Definition grant_b : SnapshotCopyGrant := mkGrant None "b" [].

Definition denied : sdk_error := AwsError "AccessDenied" "not authorized".

Definition page (marker : option string) (grants : list SnapshotCopyGrant)
  : DescribeSnapshotCopyGrantsOutput :=
  mkDescribeOutput marker grants.

Definition client : AWSClient := mkAWSClient "aws" "us-east-1" "123456789012".

(** Resource data for the grant [a], whose configuration adds a tag to
    those of the prior state. *)
Definition retagged : ResourceData :=
  mkResourceData "a"
    (mkAttributes "arn:aws:redshift:us-east-1:123456789012:snapshotcopygrant:a"
                  "a" "key-1" ∅)
    (mkAttributes "arn:aws:redshift:us-east-1:123456789012:snapshotcopygrant:a"
                  "a" "key-1" {["env" := "prod"]}).

(** A configuration from which to create the grant [a]. *)
Definition planned : ResourceData :=
  mkResourceData ""
    (mkAttributes "" "" "" ∅)
    (mkAttributes "" "a" "key-1" {["env" := "prod"]}).

(** What is seen of an account when its tags are left aside: the name and
    the key of every grant. *)
Definition untagged (c : list SnapshotCopyGrant) : list (string * option string) :=
  (fun g => (SnapshotCopyGrantName g, KmsKeyId g)) <$> c.

(** The scripted service that answers the describe calls with [l], then
    with [last] for ever. *)
Definition script (l : list DescribeResult) (last : DescribeResult) : Script :=
  mkScript (inr (mkCreateOutput grant_a)) None None (pages_of l last).

(** A service that lists the grant [a] and refuses every tag mutation. *)
Definition tags_refused : Script :=
  mkScript (inr (mkCreateOutput grant_a)) None (Some (SdkError denied))
           (pages_of [] (inr (page None [grant_a]))).

(** A service that refuses to create and to delete. *)
Definition all_refused : Script :=
  mkScript (inl denied) (Some denied) (Some (SdkError denied))
           (pages_of [] (inl denied)).

(** A service whose every page is empty and has a marker. *)
Definition endless : Script := script [] (inr (page (Some "next") [])).

(** A service that has no grant to list. *)
Definition nothing_listed : Script := script [] (inr (page None [])).

(** A service that leads a lookup over one page to the grant [a]. *)
Definition two_pages : Script :=
  script [inr (page (Some "m1") [grant_b]); inr (page None [grant_b; grant_a])]
         (inl denied).

(** A service that lists the grant [a] for ever. *)
Definition listed : Script := script [] (inr (page None [grant_a])).

(** ** What the claims speak of *)

(** The requests of one lookup of [grantName] that is led through the pages
    [ps]: at most 100 records each, the name on the first request only, the
    marker of the page before on each of the others. *)
Definition lookup_requests (grantName : string)
  (ps : list DescribeSnapshotCopyGrantsOutput)
  : list DescribeSnapshotCopyGrantsInput :=
  mkDescribeInput None (Some 100%Z) (Some grantName)
  :: ((fun p => mkDescribeInput (Marker p) (Some 100%Z) None) <$> ps).

(** The same requests for a lookup that starts from the marker [mk]. *)
Definition requests_from (grantName : string) (mk : option string)
  (ps : list DescribeSnapshotCopyGrantsOutput)
  : list DescribeSnapshotCopyGrantsInput :=
  describe_input grantName mk
  :: ((fun p => mkDescribeInput (Marker p) (Some 100%Z) None) <$> ps).

(** The answers of the service to a run of describe calls, and the
    connection state they leave. *)
Fixpoint serve {conn : Type} `{Redshift conn} (c : conn)
  (inputs : list DescribeSnapshotCopyGrantsInput) : list DescribeResult * conn :=
  match inputs with
  | [] => ([], c)
  | input :: rest =>
      let '(r, c1) := DescribeSnapshotCopyGrants input c in
      let '(rs, c2) := serve c1 rest in
      (r :: rs, c2)
  end.

(** No grant of the list is named [grantName]. *)
Definition absent (grantName : string) (grants : list SnapshotCopyGrant) : Prop :=
  Forall (fun g => SnapshotCopyGrantName g ≠ grantName) grants.

(** A page that sends the lookup on: it lacks the grant and has a marker. *)
Definition passes_on (grantName : string) (p : DescribeSnapshotCopyGrantsOutput)
  : Prop :=
  absent grantName (SnapshotCopyGrants p) ∧ is_Some (Marker p).

(** What the answer [r] to the last request [input] of a lookup makes the
    lookup return. *)
Inductive lookup_result (grantName : string)
  (input : DescribeSnapshotCopyGrantsInput) : DescribeResult -> Found -> Prop :=
| lookup_found before g after marker :
    absent grantName before ->
    SnapshotCopyGrantName g = grantName ->
    lookup_result grantName input
      (inr (mkDescribeOutput marker (before ++ g :: after)))
      (Some g, None)
| lookup_not_found grants :
    absent grantName grants ->
    lookup_result grantName input
      (inr (mkDescribeOutput None grants))
      (None,
       Some (NotFoundError ("[DEBUG] Grant " +:+ grantName +:+ " not found") input))
| lookup_failed err :
    lookup_result grantName input (inl err) (None, Some (SdkError err)).

(** The number of lookups begun among the calls: a lookup begins with the
    one request of its own that carries no marker. *)
Definition begins_lookup (c : Call) : bool :=
  match c with
  | CallDescribe input _ =>
      match describe_Marker input with
      | None => true
      | Some _ => false
      end
  | _ => false
  end.

Definition lookups (l : list Call) : nat :=
  length (List.filter begins_lookup l).

(** The calls that change the account. *)
Definition is_mutation (c : Call) : bool :=
  match c with
  | CallDescribe _ _ => false
  | _ => true
  end.

Definition is_tag_mutation (c : Call) : bool :=
  match c with
  | CallUpdateTags _ _ _ _ => true
  | _ => false
  end.

(** Both retried functions make one lookup and decide on its result
    whether to stop, to retry or to give up: [poll_with] is that shape,
    [find_decide] and [wait_decide] are the two decisions. *)
Definition poll_with {conn : Type} `{Redshift conn}
  (decide : Found -> option RetryError) (fuel : nat) (grantName : string)
  : @RetryFunc (Poll (conn := conn)) :=
  fun st =>
    match findAwsRedshiftSnapshotCopyGrant fuel (snd st) grantName None with
    | None => None
    | Some (r, w) => Some (decide r, (fst r, w))
    end.

Definition find_decide (r : Found) : option RetryError :=
  match snd r with
  | Some e =>
      if is_NotFoundError e then RetryableError (Some e)
      else NonRetryableError (snd r)
  | None => None
  end.

Definition wait_decide (r : Found) : option RetryError :=
  if isAWSErr (snd r) ErrCodeSnapshotCopyGrantNotFoundFault "" then None
  else
    match fst r with
    | Some g =>
        RetryableError
          (Some (Errorf "[DEBUG] Grant still exists while expected to be deleted: %s"
                        [ArgString (SnapshotCopyGrantName g)]))
    | None => NonRetryableError (snd r)
    end.

Section PollEnd.
Context {conn : Type} `{Redshift conn}.

(** How a run of retried lookups that returns has ended: either there was
    room for no lookup, or the last of at most [n] lookups has decided: it
    has not asked for a retry, or it has and it was the [n]-th. *)
Inductive poll_end (decide : Found -> option RetryError) (fuel : nat)
  (grantName : string) (resultErr : option error) (n : nat) (l : list Call)
  (st : Poll (conn := conn))
  : option error -> Poll (conn := conn) -> Prop :=
| poll_no_attempt :
    n = 0 ->
    l = [] ->
    poll_end decide fuel grantName resultErr n l st
      (Some (default TimeoutError resultErr)) st
| poll_decided w0 l0 l1 r w' err :
    calls w0 = calls (snd st) ++ l0 ->
    l = l0 ++ l1 ->
    findAwsRedshiftSnapshotCopyGrant fuel w0 grantName None = Some (r, w') ->
    calls w' = calls w0 ++ l1 ->
    l1 <> [] ->
    1 <= lookups l <= n ->
    match decide r with
    | None => err = None
    | Some rerr =>
        err = Some (Err rerr) /\ (Retryable rerr = true -> lookups l = n)
    end ->
    poll_end decide fuel grantName resultErr n l st err (fst r, w').
End PollEnd.

(** ** Runs of lookups *)

(** The lookup has reported the absence of the grant with its own
    [NotFoundError]. *)
Definition reports_not_found (r : Found) : Prop :=
  exists message input, r = (None, Some (NotFoundError message input)).

(** The lookup has found a grant. *)
Definition lists_grant (r : Found) : Prop :=
  exists grant, r = (Some grant, None).

(** [k] lookups of [grantName] in a row, the first from [w], the last
    leaving [w'], each with a result in [P]. *)
Inductive lookup_run {conn : Type} `{Redshift conn} (P : Found -> Prop)
  (fuel : nat) (grantName : string) : nat -> World conn -> World conn -> Prop :=
| run_none w : lookup_run P fuel grantName 0 w w
| run_more k w r w1 w' :
    findAwsRedshiftSnapshotCopyGrant fuel w grantName None = Some (r, w1) ->
    P r ->
    lookup_run P fuel grantName k w1 w' ->
    lookup_run P fuel grantName (S k) w w'.

(** What [findAwsRedshiftSnapshotCopyGrantWithRetry] returns for the result
    of the lookup it ends on: the error wrapped, or the grant. *)
Definition found_or_wrapped (r : Found) : Found :=
  match snd r with
  | Some e =>
      (None, Some (Errorf "Error finding snapshot copy grant: %s" [ArgError e]))
  | None => (fst r, None)
  end.

(** What [waitForAwsRedshiftSnapshotCopyGrantToBeDeleted] returns for the
    result of the lookup it ends on: [nil] for an error with the code
    [SnapshotCopyGrantNotFoundFault], any other error wrapped, and [nil] for
    no error. *)
Definition deleted_or_wrapped (r : Found) : option error :=
  if isAWSErr (snd r) ErrCodeSnapshotCopyGrantNotFoundFault "" then None
  else
    match snd r with
    | Some e =>
        Some (Errorf "Error waiting for snapshot copy grant to be deleted: %s"
                     [ArgError e])
    | None => None
    end.

(** The fault with which the service says that a grant is gone. *)
Definition gone : sdk_error :=
  AwsError ErrCodeSnapshotCopyGrantNotFoundFault "no such grant".

(** A service on which the grant [a] shows at the second describe call. *)
Definition appears_late : Script :=
  script [inr (page None [])] (inr (page None [grant_a])).

(** A service on which the grant [a] is listed once more, then gone. *)
Definition disappears : Script :=
  script [inr (page None [grant_a])] (inl gone).

(** * Properties *)

(** ** The search of one page *)

Lemma get_absent grants grantName :
  absent grantName grants ->
  getAwsRedshiftSnapshotCopyGrant grants grantName = None.
Proof.
  induction 1 as [|g grants Hg _ IH]; simpl; [reflexivity|].
  apply String.eqb_neq in Hg. rewrite Hg. exact IH.
Qed.

Lemma get_first before g after grantName :
  absent grantName before ->
  SnapshotCopyGrantName g = grantName ->
  getAwsRedshiftSnapshotCopyGrant (before ++ g :: after) grantName = Some g.
Proof.
  intros Hb Hg. induction Hb as [|x before Hx _ IH]; simpl.
  - apply String.eqb_eq in Hg. rewrite Hg. reflexivity.
  - apply String.eqb_neq in Hx. rewrite Hx. exact IH.
Qed.

Lemma get_None_absent grants grantName :
  getAwsRedshiftSnapshotCopyGrant grants grantName = None ->
  absent grantName grants.
Proof.
  induction grants as [|g grants IH]; simpl; intros Hn; [constructor|].
  destruct (String.eqb (SnapshotCopyGrantName g) grantName) eqn:E; [discriminate|].
  constructor; [apply String.eqb_neq, E | apply IH, Hn].
Qed.

Lemma get_Some_name grants grantName g :
  getAwsRedshiftSnapshotCopyGrant grants grantName = Some g ->
  SnapshotCopyGrantName g = grantName.
Proof.
  induction grants as [|x grants IH]; simpl; [discriminate|].
  destruct (String.eqb (SnapshotCopyGrantName x) grantName) eqn:E.
  - intros [= <-]. apply String.eqb_eq, E.
  - exact IH.
Qed.

(** ** The paginated lookup *)

Section LookupFacts.
Context {conn : Type} `{Redshift conn}.

Lemma requests_from_None grantName ps :
  requests_from grantName None ps = lookup_requests grantName ps.
Proof. reflexivity. Qed.

Lemma requests_from_cons grantName mk p ps :
  is_Some (Marker p) ->
  requests_from grantName mk (p :: ps)
  = describe_input grantName mk :: requests_from grantName (Marker p) ps.
Proof. intros [m Hm]. unfold requests_from. simpl. rewrite Hm. reflexivity. Qed.

Lemma last_requests_from_cons grantName mk p ps d :
  is_Some (Marker p) ->
  default d (last (requests_from grantName mk (p :: ps)))
  = default d (last (requests_from grantName (Marker p) ps)).
Proof.
  intros Hp. rewrite requests_from_cons by exact Hp.
  unfold requests_from at 1. rewrite last_cons_cons. reflexivity.
Qed.

Lemma last_requests_from_default grantName mk ps d d' :
  default d (last (requests_from grantName mk ps))
  = default d' (last (requests_from grantName mk ps)).
Proof.
  destruct (last (requests_from grantName mk ps)) eqn:E; [reflexivity|].
  apply last_None in E. discriminate.
Qed.

(** More fuel does not change the answer of a lookup that returns. *)
Lemma find_fuel_mono fuel fuel' w grantName mk r :
  findAwsRedshiftSnapshotCopyGrant fuel w grantName mk = Some r ->
  fuel <= fuel' ->
  findAwsRedshiftSnapshotCopyGrant fuel' w grantName mk = Some r.
Proof.
  revert fuel' w mk. induction fuel as [|fuel IH]; intros fuel' w mk; simpl.
  - discriminate.
  - intros Hrun Hle. destruct fuel' as [|fuel']; [lia|]. simpl.
    destruct (call_Describe (describe_input grantName mk) w) as [[err|out] w'];
      [exact Hrun|].
    destruct (getAwsRedshiftSnapshotCopyGrant (SnapshotCopyGrants out) grantName);
      [exact Hrun|].
    destruct (Marker out); [|exact Hrun].
    apply IH; [exact Hrun | lia].
Qed.

(** The lookup led through the pages [ps] to the answer [r]. *)
Lemma find_walk grantName ps :
  forall mk w r c' res fuel,
    Forall (passes_on grantName) ps ->
    serve (remote w) (requests_from grantName mk ps) = ((inr <$> ps) ++ [r], c') ->
    lookup_result grantName
      (default (describe_input grantName mk) (last (requests_from grantName mk ps)))
      r res ->
    length ps < fuel ->
    findAwsRedshiftSnapshotCopyGrant fuel w grantName mk
    = Some (res,
            mkWorld c'
              (calls w ++ zip_with CallDescribe (requests_from grantName mk ps)
                                   ((inr <$> ps) ++ [r]))).
Proof.
  induction ps as [|p ps IH]; intros mk w r c' res fuel Hpass Hserve Hres Hfuel;
    (destruct fuel as [|fuel]; [simpl in Hfuel; lia|]).
  - cbn [requests_from fmap list_fmap serve last default length zip_with app
           findAwsRedshiftSnapshotCopyGrant] in Hserve, Hres |- *.
    unfold call_Describe.
    destruct (DescribeSnapshotCopyGrants (describe_input grantName mk) (remote w))
      as [r0 c1].
    injection Hserve as -> ->.
    inversion Hres as [before g after marker Hb Hg|grants Hg|err]; subst; simpl.
    + rewrite (get_first _ _ _ _ Hb eq_refl). reflexivity.
    + rewrite (get_absent _ _ Hg). reflexivity.
    + reflexivity.
  - apply Forall_cons in Hpass as [[Habs Hmk] Hpass].
    rewrite last_requests_from_cons in Hres by exact Hmk.
    rewrite (last_requests_from_default _ _ _ _ (describe_input grantName (Marker p)))
      in Hres.
    rewrite requests_from_cons in Hserve |- * by exact Hmk.
    cbn [fmap list_fmap serve length zip_with app
         findAwsRedshiftSnapshotCopyGrant] in Hserve |- *.
    unfold call_Describe.
    destruct (DescribeSnapshotCopyGrants (describe_input grantName mk) (remote w))
      as [r0 c1].
    destruct (serve c1 (requests_from grantName (Marker p) ps)) as [rs c2] eqn:Hrest.
    injection Hserve as -> -> ->.
    rewrite (get_absent _ _ Habs).
    destruct Hmk as [m Hm]. rewrite Hm.
    rewrite <- Hm.
    rewrite (IH (Marker p)
               (mkWorld c1 (calls w ++ [CallDescribe (describe_input grantName mk)
                                                     (inr p)]))
               r c' res fuel Hpass Hrest Hres) by (simpl in Hfuel; lia).
    simpl. rewrite <- app_assoc. reflexivity.
Qed.

(** C1. For every grant name and every run of API pages: a lookup that
    the service leads through pages [ps], each of which lacks the grant
    and carries a marker, and then answers with [r], asks for at most 100
    records each time, gives the name on its first request only and the
    marker of the page before on every other request, and returns: the
    first grant of that name when [r] is a page that has one; a
    [NotFoundError] when [r] is a page without such a grant and without
    a marker; the error itself when [r] is an error. *)
Theorem find_follows_markers grantName ps w r c' res fuel :
  Forall (passes_on grantName) ps ->
  serve (remote w) (lookup_requests grantName ps) = ((inr <$> ps) ++ [r], c') ->
  lookup_result grantName
    (default (mkDescribeInput None (Some 100%Z) (Some grantName))
             (last (lookup_requests grantName ps)))
    r res ->
  length ps < fuel ->
  findAwsRedshiftSnapshotCopyGrant fuel w grantName None
  = Some (res,
          mkWorld c'
            (calls w ++ zip_with CallDescribe (lookup_requests grantName ps)
                                 ((inr <$> ps) ++ [r]))).
Proof.
  intros Hpass Hserve Hres Hfuel.
  rewrite <- requests_from_None in *.
  apply find_walk; assumption.
Qed.
End LookupFacts.

(** ** Counting the calls *)

Lemma lookups_app l1 l2 : lookups (l1 ++ l2) = lookups l1 + lookups l2.
Proof. unfold lookups. rewrite List.filter_app, length_app. reflexivity. Qed.

Lemma lookups_cons c l :
  lookups (c :: l) = (if begins_lookup c then 1 else 0) + lookups l.
Proof. unfold lookups. simpl. destruct (begins_lookup c); reflexivity. Qed.

Lemma strings_Contains_empty s : strings_Contains s "" = true.
Proof. destruct s; reflexivity. Qed.

Lemma isAWSErr_code err code :
  isAWSErr err code "" = true <->
  exists message, err = Some (SdkError (AwsError code message)).
Proof.
  split.
  - destruct err as [[[c m| ]| | | ]|]; simpl; try discriminate.
    rewrite strings_Contains_empty, andb_true_r. intros Hc.
    apply String.eqb_eq in Hc. subst c. exists m. reflexivity.
  - intros [m ->]. simpl.
    rewrite String.eqb_refl, strings_Contains_empty. reflexivity.
Qed.

(** ** One lookup *)

Section OneLookup.
Context {conn : Type} `{Redshift conn}.

(** What a lookup that returns has returned and called: describe calls
    only; one request without marker when it started without one; a
    grant of the requested name, or else an error, which is a
    [NotFoundError] or the error of the last call. *)
Lemma find_returns fuel grantName :
  forall w mk g e w',
    findAwsRedshiftSnapshotCopyGrant fuel w grantName mk = Some ((g, e), w') ->
    exists l,
      calls w' = calls w ++ l
      /\ Forall (fun c => is_mutation c = false) l
      /\ lookups l = match mk with Some _ => 0 | None => 1 end
      /\ ((exists grant, g = Some grant /\ e = None
                         /\ SnapshotCopyGrantName grant = grantName)
          \/ (g = None /\
              exists err, e = Some err /\
                (is_NotFoundError err = true
                 \/ exists s input, err = SdkError s
                                    /\ last l = Some (CallDescribe input (inl s))))).
Proof.
  induction fuel as [|fuel IH]; intros w mk g e w'; simpl; [discriminate|].
  unfold call_Describe.
  destruct (DescribeSnapshotCopyGrants (describe_input grantName mk) (remote w))
    as [r c1].
  set (first := CallDescribe (describe_input grantName mk) r).
  assert (Hfirst : lookups [first] = match mk with Some _ => 0 | None => 1 end).
  { unfold lookups, first. destruct mk; reflexivity. }
  destruct r as [err|out].
  - intros [= <- <- <-]. exists [first]. simpl.
    repeat split; [repeat constructor | exact Hfirst |].
    right. split; [reflexivity|]. eexists. split; [reflexivity|].
    right. eexists _, _. split; reflexivity.
  - destruct (getAwsRedshiftSnapshotCopyGrant (SnapshotCopyGrants out) grantName)
      as [grant|] eqn:Hget.
    + intros [= <- <- <-]. exists [first]. simpl.
      repeat split; [repeat constructor | exact Hfirst |].
      left. exists grant. repeat split. eapply get_Some_name, Hget.
    + destruct (Marker out) as [m|] eqn:Hm.
      * intros Hrun. apply IH in Hrun as (l & Hcalls & Hdesc & Hcount & Hres).
        simpl in Hcalls. exists (first :: l).
        rewrite Hcalls, <- app_assoc. repeat split.
        -- constructor; [reflexivity | exact Hdesc].
        -- change (first :: l) with ([first] ++ l).
           rewrite lookups_app, Hfirst, Hcount. lia.
        -- destruct Hres as [Hres|(-> & err & -> & [Hnf|(s & input & -> & Hlast)])].
           ++ left. exact Hres.
           ++ right. split; [reflexivity|]. eexists. split; [reflexivity|].
              left. exact Hnf.
           ++ right. split; [reflexivity|]. eexists. split; [reflexivity|].
              right. exists s, input. split; [reflexivity|].
              destruct l; [discriminate|]. rewrite last_cons_cons. exact Hlast.
      * intros [= <- <- <-]. exists [first]. simpl.
        repeat split; [repeat constructor | exact Hfirst |].
        right. split; [reflexivity|]. eexists. split; [reflexivity|].
        left. reflexivity.
Qed.

(** A lookup never returns a [nil] grant with a [nil] error, nor both. *)
Lemma find_one_of_two fuel w grantName mk g e w' :
  findAwsRedshiftSnapshotCopyGrant fuel w grantName mk = Some ((g, e), w') ->
  (is_Some g /\ e = None) \/ (g = None /\ is_Some e).
Proof.
  intros Hrun. apply find_returns in Hrun as (l & _ & _ & _ & Hres).
  destruct Hres as [(grant & -> & -> & _)|(-> & err & -> & _)].
  - left. split; [eexists; reflexivity | reflexivity].
  - right. split; [reflexivity | eexists; reflexivity].
Qed.
End OneLookup.

(** ** The retried lookups *)

Section RetryFacts.
Context {conn : Type} `{Redshift conn}.

Lemma findWithRetry_func_poll fuel grantName st :
  findWithRetry_func fuel grantName st = poll_with find_decide fuel grantName st.
Proof.
  unfold findWithRetry_func, poll_with, find_decide.
  destruct (findAwsRedshiftSnapshotCopyGrant fuel (snd st) grantName None)
    as [[[g [e|]] w]|]; simpl; [|reflexivity..].
  destruct (is_NotFoundError e); reflexivity.
Qed.

Lemma waitToBeDeleted_func_poll fuel grantName st :
  waitToBeDeleted_func fuel grantName st = poll_with wait_decide fuel grantName st.
Proof.
  unfold waitToBeDeleted_func, poll_with, wait_decide.
  destruct (findAwsRedshiftSnapshotCopyGrant fuel (snd st) grantName None)
    as [[[g [e|]] w]|]; cbn [fst snd]; [| |reflexivity].
  - destruct (isAWSErr (Some e) ErrCodeSnapshotCopyGrantNotFoundFault "");
      [reflexivity|]. destruct g; reflexivity.
  - destruct g; reflexivity.
Qed.

Lemma retry_loop_ext {St : Type} (f f' : @RetryFunc St) :
  (forall st, f st = f' st) ->
  forall n last st, retry_loop last n f st = retry_loop last n f' st.
Proof.
  intros Hext n. induction n as [|n IH]; intros last st; simpl; [reflexivity|].
  rewrite Hext. destruct (f' st) as [[[rerr|] st']|]; try reflexivity.
  destruct (Retryable rerr); [apply IH | reflexivity].
Qed.

Lemma retry_poll_returns decide fuel grantName n :
  forall last st err st',
    retry_loop last n (poll_with decide fuel grantName) st = Some (err, st') ->
    exists l,
      calls (snd st') = calls (snd st) ++ l
      /\ Forall (fun c => is_mutation c = false) l
      /\ lookups l <= n
      /\ poll_end decide fuel grantName last n l st err st'.
Proof.
  induction n as [|n IH]; intros last st err st'; simpl.
  - intros [= <- <-]. exists []. rewrite app_nil_r.
    repeat split; [constructor | reflexivity |]. constructor; reflexivity.
  - unfold poll_with at 1.
    destruct (findAwsRedshiftSnapshotCopyGrant fuel (snd st) grantName None)
      as [[[g e] w]|] eqn:Hfind; [|discriminate].
    destruct (find_returns _ _ _ _ _ _ _ Hfind) as (l1 & Hcalls & Hdesc & Hcount & _).
    assert (Hne : l1 <> []) by (intros ->; discriminate).
    destruct (decide (g, e)) as [rerr|] eqn:Hdec.
    + destruct (Retryable rerr) eqn:Hretry.
      * intros Hrun. apply IH in Hrun as (l & Hcalls' & Hdesc' & Hcount' & Hend).
        simpl in Hcalls'. exists (l1 ++ l).
        rewrite Hcalls', Hcalls, <- app_assoc, lookups_app, Hcount.
        repeat split; [apply Forall_app; split; assumption | lia |].
        inversion Hend as [Hn Hl|w0 l0 l2 r w' err0 Hw0 Hl Hf Hw' Hne2 Hc Hd];
          subst.
        -- rewrite app_nil_r.
           apply (poll_decided _ _ _ _ _ _ st (snd st) [] l1 (g, e) w
                    (Some (Err rerr)));
             try assumption; try reflexivity.
           ++ rewrite app_nil_r. reflexivity.
           ++ lia.
           ++ rewrite Hdec. split; [reflexivity | intros _; exact Hcount].
        -- apply (poll_decided _ _ _ _ _ _ st w0 (l1 ++ l0) l2 r w' err);
             try assumption.
           ++ rewrite Hw0. simpl. rewrite Hcalls, <- app_assoc. reflexivity.
           ++ rewrite <- app_assoc. reflexivity.
           ++ rewrite lookups_app, Hcount. lia.
           ++ destruct (decide r) as [rerr'|]; [|exact Hd].
              destruct Hd as [Herr Hlast]. split; [exact Herr|].
              intros Hr. rewrite lookups_app, Hcount, (Hlast Hr). reflexivity.
      * intros [= <- <-]. exists l1. simpl.
        repeat split; [exact Hcalls | exact Hdesc | lia |].
        apply (poll_decided _ _ _ _ _ _ st (snd st) [] l1 (g, e) w
                 (Some (Err rerr)));
          try assumption; try reflexivity.
        -- rewrite app_nil_r. reflexivity.
        -- lia.
        -- rewrite Hdec. split; [reflexivity | congruence].
    + intros [= <- <-]. exists l1. simpl.
      repeat split; [exact Hcalls | exact Hdesc | lia |].
      apply (poll_decided _ _ _ _ _ _ st (snd st) [] l1 (g, e) w None);
        try assumption; try reflexivity.
      -- rewrite app_nil_r. reflexivity.
      -- lia.
      -- rewrite Hdec. reflexivity.
Qed.

(** More page budget does not change a run of retried lookups that
    returns. *)
Lemma retry_poll_fuel_mono decide fuel fuel' grantName n :
  fuel <= fuel' ->
  forall last st r,
    retry_loop last n (poll_with decide fuel grantName) st = Some r ->
    retry_loop last n (poll_with decide fuel' grantName) st = Some r.
Proof.
  intros Hle. induction n as [|n IH]; intros last st r; simpl; [trivial|].
  unfold poll_with at 1 3.
  destruct (findAwsRedshiftSnapshotCopyGrant fuel (snd st) grantName None)
    as [[r0 w]|] eqn:Hfind; [|discriminate].
  rewrite (find_fuel_mono _ _ _ _ _ _ Hfind Hle).
  destruct (decide r0) as [rerr|]; [|trivial].
  destruct (Retryable rerr); [apply IH | trivial].
Qed.

(** When every lookup returns, so does every run of retried lookups, and
    so does the lookup that follows it. *)
Lemma retry_poll_terminates decide grantName n :
  (forall w : World conn, exists fuel,
      is_Some (findAwsRedshiftSnapshotCopyGrant fuel w grantName None)) ->
  forall last st, exists fuel err st',
    retry_loop last n (poll_with decide fuel grantName) st = Some (err, st')
    /\ is_Some (findAwsRedshiftSnapshotCopyGrant fuel (snd st') grantName None).
Proof.
  intros Hall. induction n as [|n IH]; intros last st.
  - destruct (Hall (snd st)) as (fuel & Hf).
    exists fuel, (Some (default TimeoutError last)), st.
    split; [reflexivity | exact Hf].
  - destruct (Hall (snd st)) as (fuel1 & [[r w] Hf]).
    destruct (decide r) as [rerr|] eqn:Hdec.
    + destruct (Retryable rerr) eqn:Hretry.
      * destruct (IH (Some (Err rerr)) (fst r, w))
          as (fuel2 & err & st' & Hrun & [r2 Hf2]).
        exists (Nat.max fuel1 fuel2), err, st'. split.
        -- simpl. unfold poll_with at 1.
           rewrite (find_fuel_mono _ _ _ _ _ _ Hf (Nat.le_max_l _ _)).
           rewrite Hdec, Hretry.
           apply (retry_poll_fuel_mono _ fuel2); [apply Nat.le_max_r | exact Hrun].
        -- exists r2. apply (find_fuel_mono _ _ _ _ _ _ Hf2 (Nat.le_max_r _ _)).
      * destruct (Hall w) as (fuel2 & [r2 Hf2]).
        exists (Nat.max fuel1 fuel2), (Some (Err rerr)), (fst r, w). split.
        -- simpl. unfold poll_with at 1.
           rewrite (find_fuel_mono _ _ _ _ _ _ Hf (Nat.le_max_l _ _)).
           rewrite Hdec, Hretry. reflexivity.
        -- exists r2. apply (find_fuel_mono _ _ _ _ _ _ Hf2 (Nat.le_max_r _ _)).
    + destruct (Hall w) as (fuel2 & [r2 Hf2]).
      exists (Nat.max fuel1 fuel2), None, (fst r, w). split.
      * simpl. unfold poll_with at 1.
        rewrite (find_fuel_mono _ _ _ _ _ _ Hf (Nat.le_max_l _ _)).
        rewrite Hdec. reflexivity.
      * exists r2. apply (find_fuel_mono _ _ _ _ _ _ Hf2 (Nat.le_max_r _ _)).
Qed.
End RetryFacts.

(** ** The polling helpers *)

Section HelperFacts.
Context {conn : Type} `{Redshift conn} `{Clock}.

Lemma findWithRetry_unfold fuel w grantName :
  findAwsRedshiftSnapshotCopyGrantWithRetry fuel w grantName
  = match retry_loop None (attempts_within (3 * Minute))
            (poll_with find_decide fuel grantName) (None, w) with
    | None => None
    | Some (err, (grant, w1)) =>
        match (if isResourceTimeoutError err
               then findAwsRedshiftSnapshotCopyGrant fuel w1 grantName None
               else Some ((grant, err), w1)) with
        | None => None
        | Some ((grant, Some e), w2) =>
            Some ((None,
                   Some (Errorf "Error finding snapshot copy grant: %s" [ArgError e])),
                  w2)
        | Some ((grant, None), w2) => Some ((grant, None), w2)
        end
    end.
Proof.
  unfold findAwsRedshiftSnapshotCopyGrantWithRetry, Retry.
  rewrite (retry_loop_ext _ _ (findWithRetry_func_poll fuel grantName)).
  reflexivity.
Qed.

Lemma waitToBeDeleted_unfold fuel w grantName :
  waitForAwsRedshiftSnapshotCopyGrantToBeDeleted fuel w grantName
  = match retry_loop None (attempts_within (3 * Minute))
            (poll_with wait_decide fuel grantName) (None, w) with
    | None => None
    | Some (err, (grant, w1)) =>
        if isResourceTimeoutError err then
          match findAwsRedshiftSnapshotCopyGrant fuel w1 grantName None with
          | None => None
          | Some ((grant, err), w2) =>
              if isAWSErr err ErrCodeSnapshotCopyGrantNotFoundFault ""
              then Some (None, w2)
              else
                Some (match err with
                      | Some e =>
                          (Some (Errorf
                                   "Error waiting for snapshot copy grant to be deleted: %s"
                                   [ArgError e]), w2)
                      | None => (None, w2)
                      end)
          end
        else
          Some (match err with
                | Some e =>
                    (Some (Errorf
                             "Error waiting for snapshot copy grant to be deleted: %s"
                             [ArgError e]), w1)
                | None => (None, w1)
                end)
    end.
Proof.
  unfold waitForAwsRedshiftSnapshotCopyGrantToBeDeleted, Retry.
  rewrite (retry_loop_ext _ _ (waitToBeDeleted_func_poll fuel grantName)).
  reflexivity.
Qed.

(** The errors that the decision of [findWithRetry_func] stops on. *)
Lemma find_decide_stop fuel w0 grantName g e w' rerr :
  findAwsRedshiftSnapshotCopyGrant fuel w0 grantName None = Some ((g, e), w') ->
  find_decide (g, e) = Some rerr ->
  Retryable rerr = false ->
  g = None /\ exists s, e = Some (SdkError s) /\ Err rerr = SdkError s.
Proof.
  intros Hfind Hdec Hstop. unfold find_decide in Hdec. simpl in Hdec.
  apply find_returns in Hfind as (l & _ & _ & _ & Hres).
  destruct Hres as [(grant & -> & -> & _)|(-> & err & -> & Herr)];
    [discriminate|].
  split; [reflexivity|].
  destruct Herr as [Hnf|(s & input & -> & _)].
  - rewrite Hnf in Hdec. injection Hdec as <-. discriminate.
  - simpl in Hdec. injection Hdec as <-. exists s. split; reflexivity.
Qed.

(** The errors that the decision of [findWithRetry_func] retries on. *)
Lemma find_decide_retry fuel w0 grantName g e w' rerr :
  findAwsRedshiftSnapshotCopyGrant fuel w0 grantName None = Some ((g, e), w') ->
  find_decide (g, e) = Some rerr ->
  Retryable rerr = true ->
  g = None /\ e = Some (Err rerr) /\ is_NotFoundError (Err rerr) = true.
Proof.
  intros Hfind Hdec Hretry. unfold find_decide in Hdec. simpl in Hdec.
  apply find_returns in Hfind as (l & _ & _ & _ & Hres).
  destruct Hres as [(grant & -> & -> & _)|(-> & err & -> & Herr)];
    [discriminate|].
  split; [reflexivity|].
  destruct (is_NotFoundError err) eqn:Hnf; simpl in Hdec;
    injection Hdec as <-; [|discriminate].
  split; [reflexivity | exact Hnf].
Qed.

Lemma find_decide_done fuel w0 grantName g e w' :
  findAwsRedshiftSnapshotCopyGrant fuel w0 grantName None = Some ((g, e), w') ->
  find_decide (g, e) = None ->
  e = None /\ exists grant, g = Some grant /\ SnapshotCopyGrantName grant = grantName.
Proof.
  intros Hfind Hdec. unfold find_decide in Hdec. simpl in Hdec.
  apply find_returns in Hfind as (l & _ & _ & _ & Hres).
  destruct Hres as [(grant & -> & -> & Hname)|(-> & err & -> & _)].
  - split; [reflexivity|]. exists grant. split; [reflexivity | exact Hname].
  - destruct (is_NotFoundError err); discriminate.
Qed.

(** What [findAwsRedshiftSnapshotCopyGrantWithRetry] has returned and
    called when it returns. *)
Lemma findWithRetry_returns fuel w grantName g e w' :
  findAwsRedshiftSnapshotCopyGrantWithRetry fuel w grantName = Some ((g, e), w') ->
  exists l,
    calls w' = calls w ++ l
    /\ Forall (fun c => is_mutation c = false) l
    /\ lookups l <= attempts_within (3 * Minute) + 1
    /\ ((exists grant, g = Some grant /\ e = None
                       /\ SnapshotCopyGrantName grant = grantName)
        \/ (g = None /\
            exists err,
              e = Some (Errorf "Error finding snapshot copy grant: %s" [ArgError err])
              /\ (is_NotFoundError err = true \/ exists s, err = SdkError s))).
Proof.
  rewrite findWithRetry_unfold.
  destruct (retry_loop _ _ _ _) as [[err [g1 w1]]|] eqn:Hrun; [|discriminate].
  apply retry_poll_returns in Hrun as (l & Hcalls & Hdesc & Hcount & Hend).
  simpl in Hcalls.
  inversion Hend as [Hn Hl|w0 l0 l1 [g0 e0] w2 err0 Hw0 Hl Hf Hw2 Hne Hc Hd]; subst.
  - simpl.
    destruct (findAwsRedshiftSnapshotCopyGrant fuel _ grantName None)
      as [[[g2 e2] w2]|] eqn:Hfind; [|discriminate].
    destruct (find_returns _ _ _ _ _ _ _ Hfind) as (l2 & Hcalls2 & Hdesc2 & Hcount2 & Hres).
    destruct Hres as [(grant & -> & -> & Hname)|(-> & err & -> & Herr)];
      intros [= <- <- <-]; exists l2;
      (repeat split; [exact Hcalls2 | exact Hdesc2 | lia |]).
    + left. exists grant. repeat split. exact Hname.
    + right. split; [reflexivity|]. exists err. split; [reflexivity|].
      destruct Herr as [Hnf|(s & input & -> & _)]; [left; exact Hnf|].
      right. exists s. reflexivity.
  - destruct (find_decide (g1, e0)) as [rerr|] eqn:Hdec.
    + destruct Hd as [-> _]. destruct (Retryable rerr) eqn:Hretry.
      * destruct (find_decide_retry _ _ _ _ _ _ _ Hf Hdec Hretry)
          as (-> & -> & Hnf).
        replace (isResourceTimeoutError (Some (Err rerr))) with false
          by (destruct (Err rerr); [reflexivity | reflexivity | discriminate
                                    | reflexivity]).
        intros [= <- <- <-]. exists (l0 ++ l1).
        repeat split; [exact Hcalls | exact Hdesc | lia |].
        right. split; [reflexivity|]. exists (Err rerr).
        split; [reflexivity | left; exact Hnf].
      * destruct (find_decide_stop _ _ _ _ _ _ _ Hf Hdec Hretry)
          as (-> & s & -> & Hs).
        rewrite Hs. simpl. intros [= <- <- <-]. exists (l0 ++ l1).
        repeat split; [exact Hcalls | exact Hdesc | lia |].
        right. split; [reflexivity|]. exists (SdkError s). split; [reflexivity|].
        right. exists s. reflexivity.
    + subst err. destruct (find_decide_done _ _ _ _ _ _ Hf Hdec)
        as (-> & grant & -> & Hname).
      simpl. intros [= <- <- <-]. exists (l0 ++ l1).
      repeat split; [exact Hcalls | exact Hdesc | lia |].
      left. exists grant. repeat split. exact Hname.
Qed.
End HelperFacts.

Section Classification.
Context {conn : Type} `{Redshift conn} `{Clock}.

Lemma retrying_loop {St : Type} (f : @RetryFunc St) n st n' st' :
  retrying f n st n' st' ->
  forall last, exists last',
    retry_loop last n f st = retry_loop last' n' f st'.
Proof.
  induction 1 as [|n st rerr st1 n' st' Hf Hretry _ IH]; intros last;
    [exists last; reflexivity|].
  destruct (IH (Some (Err rerr))) as (last' & Hloop). exists last'.
  simpl. rewrite Hf, Hretry. exact Hloop.
Qed.

(** C2. In [findAwsRedshiftSnapshotCopyGrantWithRetry], whatever error
    the lookup returns, the retried function classifies it as retryable
    when it is a [NotFoundError] and as not retryable otherwise; on a
    retryable error the retrying goes on with the next lookup; any other
    error ends the retrying and reaches the caller wrapped in the message
    "Error finding snapshot copy grant". *)
Theorem findWithRetry_classifies fuel grantName (st : Poll (conn := conn)) g e w' :
  findAwsRedshiftSnapshotCopyGrant fuel (snd st) grantName None
  = Some ((g, Some e), w') ->
  findWithRetry_func fuel grantName st
  = Some (Some (mkRetryError e (is_NotFoundError e)), (g, w'))
  /\ (is_NotFoundError e = true ->
      forall last n,
        retry_loop last (S n) (findWithRetry_func fuel grantName) st
        = retry_loop (Some e) n (findWithRetry_func fuel grantName) (g, w'))
  /\ (is_NotFoundError e = false ->
      (forall last n,
          retry_loop last (S n) (findWithRetry_func fuel grantName) st
          = Some (Some e, (g, w')))
      /\ forall w n,
          retrying (findWithRetry_func fuel grantName)
                   (attempts_within (3 * Minute)) (None, w) (S n) st ->
          findAwsRedshiftSnapshotCopyGrantWithRetry fuel w grantName
          = Some ((None,
                   Some (Errorf "Error finding snapshot copy grant: %s"
                                [ArgError e])), w')).
Proof.
  intros Hfind.
  assert (Hfunc : findWithRetry_func fuel grantName st
                  = Some (Some (mkRetryError e (is_NotFoundError e)), (g, w'))).
  { unfold findWithRetry_func. rewrite Hfind.
    destruct (is_NotFoundError e); reflexivity. }
  split; [exact Hfunc|]. split.
  - intros Hnf last n. simpl. rewrite Hfunc. simpl. rewrite Hnf. reflexivity.
  - intros Hnf.
    assert (Hloop : forall last n,
               retry_loop last (S n) (findWithRetry_func fuel grantName) st
               = Some (Some e, (g, w'))).
    { intros last n. simpl. rewrite Hfunc. simpl. rewrite Hnf. reflexivity. }
    split; [exact Hloop|]. intros w n Hcome.
    unfold findAwsRedshiftSnapshotCopyGrantWithRetry, Retry.
    destruct (retrying_loop _ _ _ _ _ Hcome None) as (last & ->).
    rewrite Hloop.
    apply find_returns in Hfind as (l & _ & _ & _ & Hres).
    destruct Hres as [(grant & _ & [=] & _)|(_ & err & [= <-] & Herr)].
    destruct Herr as [Hyes|(s & input & -> & _)]; [congruence|].
    reflexivity.
Qed.
End Classification.

Section NeverBothNil.
Context {conn : Type} `{Redshift conn} `{Clock} `{KeyValueTags}.

(** When every lookup returns, the helper returns. *)
Lemma findWithRetry_terminates w grantName :
  (forall w0 : World conn, exists fuel0,
      is_Some (findAwsRedshiftSnapshotCopyGrant fuel0 w0 grantName None)) ->
  exists fuel0,
    is_Some (findAwsRedshiftSnapshotCopyGrantWithRetry fuel0 w grantName).
Proof.
  intros Hall.
  destruct (retry_poll_terminates find_decide grantName
              (attempts_within (3 * Minute)) Hall None (None, w))
    as (fuel0 & err & [g1 w1] & Hrun & [[[g2 e2] w2] Hfinal]).
  exists fuel0. rewrite findWithRetry_unfold, Hrun. simpl in Hfinal.
  destruct (isResourceTimeoutError err).
  - rewrite Hfinal. destruct e2; eexists; reflexivity.
  - destruct err; eexists; reflexivity.
Qed.

(** While every lookup reports that the grant is not found, the retrying
    uses up all its attempts and ends with the error of the last of them,
    or with a timeout error when there was room for none. *)
Lemma retry_not_found fuel grantName n :
  (forall w0 : World conn, exists message input w1,
      findAwsRedshiftSnapshotCopyGrant fuel w0 grantName None
      = Some ((None, Some (NotFoundError message input)), w1)) ->
  forall last st, exists err st',
    retry_loop last n (poll_with find_decide fuel grantName) st
    = Some (Some err, st')
    /\ lookups (calls (snd st')) = lookups (calls (snd st)) + n
    /\ match n with
       | O => err = default TimeoutError last /\ st' = st
       | S _ => fst st' = None
                /\ exists message input, err = NotFoundError message input
       end.
Proof.
  intros Hall. induction n as [|n IH]; intros last st.
  - exists (default TimeoutError last), st.
    split; [reflexivity|]. split; [lia|]. split; reflexivity.
  - destruct (Hall (snd st)) as (message & input & w1 & Hfind).
    destruct (IH (Some (NotFoundError message input)) (None, w1))
      as (err & st' & Hrun & Hcount & Hend).
    exists err, st'. simpl. unfold poll_with at 1. rewrite Hfind. simpl.
    split; [exact Hrun|]. split.
    + rewrite Hcount. simpl.
      apply find_returns in Hfind as (l & -> & _ & Hl & _).
      rewrite lookups_app, Hl. lia.
    + destruct n as [|n].
      * destruct Hend as [-> ->]. split; [reflexivity|].
        exists message, input. reflexivity.
      * exact Hend.
Qed.

(** C9. For every behaviour of the service,
    [findAwsRedshiftSnapshotCopyGrantWithRetry] returns a grant with a
    [nil] error or a [nil] grant with an error, never [nil] twice; it
    does return when every lookup does; when every lookup reports that
    the grant is not found, the helper returns an error once the time has
    run out, after as many lookups as fit in the time, one when none
    fits.  Hence [Read] never clears the ID, and when it returns [nil] it
    has stored a grant of that name, and [Exists] never answers
    [(false, nil)]. *)
Theorem findWithRetry_one_of_two fuel w grantName :
  (forall g e w',
      findAwsRedshiftSnapshotCopyGrantWithRetry fuel w grantName
      = Some ((g, e), w') ->
      (is_Some g /\ e = None) \/ (g = None /\ is_Some e))
  /\ ((forall w0 : World conn, exists fuel0,
          is_Some (findAwsRedshiftSnapshotCopyGrant fuel0 w0 grantName None)) ->
      exists fuel0,
        is_Some (findAwsRedshiftSnapshotCopyGrantWithRetry fuel0 w grantName))
  /\ ((forall w0 : World conn, exists message input w1,
          findAwsRedshiftSnapshotCopyGrant fuel w0 grantName None
          = Some ((None, Some (NotFoundError message input)), w1)) ->
      exists message input w',
        findAwsRedshiftSnapshotCopyGrantWithRetry fuel w grantName
        = Some ((None,
                 Some (Errorf "Error finding snapshot copy grant: %s"
                              [ArgError (NotFoundError message input)])), w')
        /\ lookups (calls w')
           = lookups (calls w) + Nat.max 1 (attempts_within (3 * Minute)))
  /\ (forall d meta err d' w',
         resourceAwsRedshiftSnapshotCopyGrantRead fuel d meta w
         = Some (err, d', w') ->
         Id d' = Id d
         /\ (err = None -> snapshot_copy_grant_name (attrs d') = Id d))
  /\ (forall d meta w',
         resourceAwsRedshiftSnapshotCopyGrantExists fuel d meta w
         <> Some (false, None, w')).
Proof.
  assert (Hshape : forall name g e w',
             findAwsRedshiftSnapshotCopyGrantWithRetry fuel w name
             = Some ((g, e), w') ->
             (is_Some g /\ e = None) \/ (g = None /\ is_Some e)).
  { intros name g e w' Hrun.
    apply findWithRetry_returns in Hrun as (l & _ & _ & _ & Hres).
    destruct Hres as [(grant & -> & -> & _)|(-> & err & -> & _)].
    - left. split; [eexists; reflexivity | reflexivity].
    - right. split; [reflexivity | eexists; reflexivity]. }
  split; [apply Hshape|]. split; [apply findWithRetry_terminates|]. split.
  - intros Hall.
    destruct (retry_not_found fuel grantName (attempts_within (3 * Minute))
                Hall None (None, w)) as (err & [g1 w1] & Hrun & Hcount & Hend).
    rewrite findWithRetry_unfold, Hrun.
    destruct (attempts_within (3 * Minute)) as [|n].
    + destruct Hend as [-> [= -> ->]].
      destruct (Hall w) as (message & input & w2 & Hfind).
      exists message, input, w2. simpl. rewrite Hfind. split; [reflexivity|].
      apply find_returns in Hfind as (l & -> & _ & Hl & _).
      rewrite lookups_app, Hl. reflexivity.
    + destruct Hend as (Hg & message & input & ->). simpl in Hg. subst g1.
      exists message, input, w1. simpl. split; [reflexivity|].
      simpl in Hcount. rewrite Hcount. reflexivity.
  - split.
    + intros d meta err d' w'. unfold resourceAwsRedshiftSnapshotCopyGrantRead.
      destruct (findAwsRedshiftSnapshotCopyGrantWithRetry fuel w (Id d))
        as [[[g e] w1]|] eqn:Hrun; [|discriminate].
      apply findWithRetry_returns in Hrun as (l & _ & _ & _ & Hres).
      destruct Hres as [(grant & -> & -> & Hname)|(-> & e0 & -> & _)].
      * simpl. intros [= <- <- <-]. split; [reflexivity|]. intros _. exact Hname.
      * intros [= <- <- <-]. split; [reflexivity | discriminate].
    + intros d meta w'. unfold resourceAwsRedshiftSnapshotCopyGrantExists.
      destruct (findAwsRedshiftSnapshotCopyGrantWithRetry fuel w (Id d))
        as [[[g e] w1]|] eqn:Hrun; [|discriminate].
      destruct (Hshape _ _ _ _ Hrun) as [[[grant ->] ->]|[-> [e0 ->]]];
        discriminate.
Qed.
End NeverBothNil.

Section Bounded.
Context {conn : Type} `{Redshift conn} `{Clock}.

(** The number of lookups of a run of retried lookups, by the way the run
    ends: none when it ends with a timeout error, and otherwise at least
    one and at most as many as there was room for. *)
Lemma retry_phase_lookups decide fuel grantName n (w : World conn) err g w1 :
  (forall w0 r w' rerr,
      findAwsRedshiftSnapshotCopyGrant fuel w0 grantName None = Some (r, w') ->
      decide r = Some rerr ->
      isResourceTimeoutError (Some (Err rerr)) = false) ->
  retry_loop None n (poll_with decide fuel grantName) (None, w)
  = Some (err, (g, w1)) ->
  if isResourceTimeoutError err
  then n = 0 /\ w1 = w
  else lookups (calls w) + 1 <= lookups (calls w1) <= lookups (calls w) + n.
Proof.
  intros Hstop Hrun.
  apply retry_poll_returns in Hrun as (l & Hcalls & _ & Hcount & Hend).
  simpl in Hcalls.
  inversion Hend as [Hn Hl|w0 l0 l1 r w2 err0 Hw0 Hl Hf Hw2 Hne Hc Hd]; subst.
  - simpl. split; reflexivity.
  - rewrite Hcalls, lookups_app. destruct (decide r) as [rerr|] eqn:Hdec.
    + destruct Hd as [-> _]. rewrite (Hstop _ _ _ _ Hf Hdec). lia.
    + subst err. simpl. lia.
Qed.

Lemma find_decide_no_timeout fuel grantName (w0 : World conn) r w' rerr :
  findAwsRedshiftSnapshotCopyGrant fuel w0 grantName None = Some (r, w') ->
  find_decide r = Some rerr ->
  isResourceTimeoutError (Some (Err rerr)) = false.
Proof.
  destruct r as [g e]. intros Hf Hdec.
  destruct (Retryable rerr) eqn:Hretry.
  - destruct (find_decide_retry _ _ _ _ _ _ _ Hf Hdec Hretry) as (_ & _ & Hnf).
    destruct (Err rerr); try discriminate; reflexivity.
  - destruct (find_decide_stop _ _ _ _ _ _ _ Hf Hdec Hretry) as (_ & s & _ & ->).
    reflexivity.
Qed.

Lemma wait_decide_no_timeout fuel grantName (w0 : World conn) r w' rerr :
  findAwsRedshiftSnapshotCopyGrant fuel w0 grantName None = Some (r, w') ->
  wait_decide r = Some rerr ->
  isResourceTimeoutError (Some (Err rerr)) = false.
Proof.
  destruct r as [g e]. intros Hf Hdec.
  apply find_returns in Hf as (l & _ & _ & _ & Hres).
  unfold wait_decide in Hdec. simpl in Hdec.
  destruct (isAWSErr e ErrCodeSnapshotCopyGrantNotFoundFault ""); [discriminate|].
  destruct Hres as [(grant & -> & -> & _)|(-> & err & -> & Herr)].
  - injection Hdec as <-. reflexivity.
  - injection Hdec as <-. simpl.
    destruct Herr as [Hnf|(s & input & -> & _)]; [|reflexivity].
    destruct err; try discriminate; reflexivity.
Qed.

Lemma waitToBeDeleted_terminates w grantName :
  (forall w0 : World conn, exists fuel0,
      is_Some (findAwsRedshiftSnapshotCopyGrant fuel0 w0 grantName None)) ->
  exists fuel0,
    is_Some (waitForAwsRedshiftSnapshotCopyGrantToBeDeleted fuel0 w grantName).
Proof.
  intros Hall.
  destruct (retry_poll_terminates wait_decide grantName
              (attempts_within (3 * Minute)) Hall None (None, w))
    as (fuel0 & err & [g1 w1] & Hrun & [[[g2 e2] w2] Hfinal]).
  exists fuel0. rewrite waitToBeDeleted_unfold, Hrun. simpl in Hfinal.
  destruct (isResourceTimeoutError err).
  - rewrite Hfinal.
    destruct (isAWSErr e2 ErrCodeSnapshotCopyGrantNotFoundFault "");
      [|destruct e2]; eexists; reflexivity.
  - destruct err; eexists; reflexivity.
Qed.

(** C3, as amended.  Both polling helpers make a bounded number of
    lookups, whatever the service answers.  One additional final lookup is
    made exactly when [resource.Retry] ends with a timeout error, which it
    does only when no retried lookup has completed in the timeout of 3
    minutes: the helper then returns what that one lookup gives.
    Otherwise the retried lookups are at least one and at most those that
    fit in the timeout, and the helper returns what [resource.Retry] has
    handed back, an error wrapped, with no further lookup.  A helper
    returns provided that each of its lookups returns. *)
Theorem polling_is_bounded fuel w grantName :
  (forall err g w1,
      Retry (3 * Minute) (findWithRetry_func fuel grantName) (None, w)
      = Some (err, (g, w1)) ->
      if isResourceTimeoutError err
      then attempts_within (3 * Minute) = 0 /\ w1 = w
           /\ forall r w2,
               findAwsRedshiftSnapshotCopyGrant fuel w1 grantName None
               = Some (r, w2) ->
               lookups (calls w2) = lookups (calls w1) + 1
               /\ findAwsRedshiftSnapshotCopyGrantWithRetry fuel w grantName
                  = Some (found_or_wrapped r, w2)
      else lookups (calls w) + 1 <= lookups (calls w1)
           /\ lookups (calls w1)
              <= lookups (calls w) + attempts_within (3 * Minute)
           /\ findAwsRedshiftSnapshotCopyGrantWithRetry fuel w grantName
              = Some (found_or_wrapped (g, err), w1))
  /\ (forall err g w1,
      Retry (3 * Minute) (waitToBeDeleted_func fuel grantName) (None, w)
      = Some (err, (g, w1)) ->
      if isResourceTimeoutError err
      then attempts_within (3 * Minute) = 0 /\ w1 = w
           /\ forall r w2,
               findAwsRedshiftSnapshotCopyGrant fuel w1 grantName None
               = Some (r, w2) ->
               lookups (calls w2) = lookups (calls w1) + 1
               /\ waitForAwsRedshiftSnapshotCopyGrantToBeDeleted fuel w grantName
                  = Some (deleted_or_wrapped r, w2)
      else lookups (calls w) + 1 <= lookups (calls w1)
           /\ lookups (calls w1)
              <= lookups (calls w) + attempts_within (3 * Minute)
           /\ waitForAwsRedshiftSnapshotCopyGrantToBeDeleted fuel w grantName
              = Some (match err with
                      | Some e =>
                          Some (Errorf
                                  "Error waiting for snapshot copy grant to be deleted: %s"
                                  [ArgError e])
                      | None => None
                      end, w1))
  /\ ((forall w0 : World conn, exists fuel0,
          is_Some (findAwsRedshiftSnapshotCopyGrant fuel0 w0 grantName None)) ->
      (exists fuel0,
          is_Some (findAwsRedshiftSnapshotCopyGrantWithRetry fuel0 w grantName))
      /\ (exists fuel0,
             is_Some (waitForAwsRedshiftSnapshotCopyGrantToBeDeleted
                        fuel0 w grantName))).
Proof.
  split; [|split].
  - intros err g w1 Hretry.
    unfold findAwsRedshiftSnapshotCopyGrantWithRetry. rewrite Hretry.
    unfold Retry in Hretry.
    rewrite (retry_loop_ext _ _ (findWithRetry_func_poll fuel grantName)) in Hretry.
    pose proof (retry_phase_lookups _ _ _ _ _ _ _ _
                  (find_decide_no_timeout fuel grantName) Hretry) as Hcount.
    destruct (isResourceTimeoutError err).
    + destruct Hcount as [Hnone ->]. split; [exact Hnone|].
      split; [reflexivity|]. intros [g2 e2] w2 Hfind. rewrite Hfind.
      apply find_returns in Hfind as (l & -> & _ & Hl & _).
      rewrite lookups_app, Hl. split; [reflexivity|].
      destruct e2; reflexivity.
    + split; [apply Hcount|]. split; [apply Hcount|].
      destruct err; reflexivity.
  - intros err g w1 Hretry.
    unfold waitForAwsRedshiftSnapshotCopyGrantToBeDeleted. rewrite Hretry.
    unfold Retry in Hretry.
    rewrite (retry_loop_ext _ _ (waitToBeDeleted_func_poll fuel grantName)) in Hretry.
    pose proof (retry_phase_lookups _ _ _ _ _ _ _ _
                  (wait_decide_no_timeout fuel grantName) Hretry) as Hcount.
    destruct (isResourceTimeoutError err).
    + destruct Hcount as [Hnone ->]. split; [exact Hnone|].
      split; [reflexivity|]. intros [g2 e2] w2 Hfind. rewrite Hfind.
      apply find_returns in Hfind as (l & -> & _ & Hl & _).
      rewrite lookups_app, Hl. split; [reflexivity|].
      unfold deleted_or_wrapped. cbn [snd].
      destruct (isAWSErr e2 ErrCodeSnapshotCopyGrantNotFoundFault "");
        [|destruct e2]; reflexivity.
    + split; [apply Hcount|]. split; [apply Hcount|].
      destruct err; reflexivity.
  - intros Hall. split.
    + apply findWithRetry_terminates. exact Hall.
    + apply waitToBeDeleted_terminates. exact Hall.
Qed.
End Bounded.

(** ** The callbacks *)

Section Callbacks.
Context {conn : Type} `{Redshift conn} `{Clock} `{KeyValueTags}.

(** C4. [Delete] returns [nil] whenever the call of
    [DeleteSnapshotCopyGrant] fails with the code
    [SnapshotCopyGrantNotFoundFault]; it returns any other error of that
    call as it is, having made no lookup; it waits for the grant to
    disappear when the call has succeeded, and only then. *)
Theorem delete_maps_error_codes fuel d meta w r c1 :
  DeleteSnapshotCopyGrant (mkDeleteInput (Some (Id d))) (remote w) = (r, c1) ->
  let w1 := mkWorld c1 (calls w ++ [CallDelete (mkDeleteInput (Some (Id d))) r]) in
  (forall message,
      r = Some (AwsError "SnapshotCopyGrantNotFoundFault" message) ->
      resourceAwsRedshiftSnapshotCopyGrantDelete fuel d meta w = Some (None, w1))
  /\ (forall e,
         r = Some e ->
         (forall message, e <> AwsError "SnapshotCopyGrantNotFoundFault" message) ->
         resourceAwsRedshiftSnapshotCopyGrantDelete fuel d meta w
         = Some (Some (SdkError e), w1))
  /\ (r = None ->
      resourceAwsRedshiftSnapshotCopyGrantDelete fuel d meta w
      = waitForAwsRedshiftSnapshotCopyGrantToBeDeleted fuel w1 (Id d))
  /\ (forall res w',
         resourceAwsRedshiftSnapshotCopyGrantDelete fuel d meta w = Some (res, w') ->
         lookups (calls w') <> lookups (calls w) ->
         r = None).
Proof.
  intros Hcall w1. unfold resourceAwsRedshiftSnapshotCopyGrantDelete, call_Delete.
  rewrite Hcall. fold w1.
  assert (Hnone : lookups (calls w1) = lookups (calls w)).
  { unfold w1. simpl. rewrite lookups_app. unfold lookups. simpl. lia. }
  repeat split.
  - intros message ->.
    assert (Hcode : isAWSErr (Some (SdkError (AwsError "SnapshotCopyGrantNotFoundFault"
                                                        message)))
                             ErrCodeSnapshotCopyGrantNotFoundFault "" = true)
      by (apply isAWSErr_code; eexists; reflexivity).
    rewrite Hcode. reflexivity.
  - intros e -> Hother.
    destruct (isAWSErr (Some (SdkError e)) ErrCodeSnapshotCopyGrantNotFoundFault "")
      eqn:Hcode; [|reflexivity].
    apply isAWSErr_code in Hcode as [message [= ->]].
    exfalso. apply (Hother message). reflexivity.
  - intros ->. reflexivity.
  - intros res w'. destruct r as [e|]; [|reflexivity].
    destruct (isAWSErr (Some (SdkError e)) ErrCodeSnapshotCopyGrantNotFoundFault "");
      intros [= <- <-] Hdiff; contradiction.
Qed.

(** C6. [Read] translates the answer of the retried lookup into the
    resource data.  When the lookup returns a grant, it sets [arn], built
    from the partition, the region, the account and the grant name,
    [kms_key_id], [snapshot_copy_grant_name] and [tags] from the grant and
    returns [nil]; when the lookup returns neither a grant nor an error,
    it clears the ID and returns [nil]; when the lookup returns an error,
    it returns that error and leaves the resource data as they are. *)
Theorem read_translates fuel d meta w g e w' :
  findAwsRedshiftSnapshotCopyGrantWithRetry fuel w (Id d) = Some ((g, e), w') ->
  (forall grant,
      g = Some grant -> e = None ->
      resourceAwsRedshiftSnapshotCopyGrantRead fuel d meta w
      = Some (None,
              mkResourceData (Id d) (prior d)
                (mkAttributes
                   ("arn:" +:+ partition meta +:+ ":redshift:" +:+ region meta
                    +:+ ":" +:+ accountid meta +:+ ":snapshotcopygrant:" +:+ Id d)
                   (SnapshotCopyGrantName grant)
                   (default "" (KmsKeyId grant))
                   (IgnoreAws (RedshiftKeyValueTags (Tags grant)))),
              w'))
  /\ (g = None -> e = None ->
      resourceAwsRedshiftSnapshotCopyGrantRead fuel d meta w
      = Some (None, mkResourceData "" (prior d) (attrs d), w'))
  /\ (forall err,
         e = Some err ->
         resourceAwsRedshiftSnapshotCopyGrantRead fuel d meta w
         = Some (Some err, d, w')).
Proof.
  intros Hrun. unfold resourceAwsRedshiftSnapshotCopyGrantRead. rewrite Hrun.
  repeat split.
  - intros grant -> ->. reflexivity.
  - intros -> ->. reflexivity.
  - intros err ->. destruct g; reflexivity.
Qed.

(** C7. [Create] sends a request with the configured grant name, with a
    [KmsKeyId] only when [kms_key_id] is set in the configuration, and
    with the configured tags.  When the call fails it returns the error
    wrapped and leaves the resource data, the ID with them, as they are;
    when the call succeeds it sets the ID to the grant name and goes on
    with [Read]. *)
Theorem create_maps_configuration fuel d meta w r c1 :
  let grantName := snapshot_copy_grant_name (attrs d) in
  let input :=
    mkCreateInput
      (if String.eqb (kms_key_id (attrs d)) "" then None
       else Some (kms_key_id (attrs d)))
      (Some grantName)
      (RedshiftTags (IgnoreAws (tags (attrs d)))) in
  CreateSnapshotCopyGrant input (remote w) = (r, c1) ->
  let w1 := mkWorld c1 (calls w ++ [CallCreate input r]) in
  (forall err,
      r = inl err ->
      resourceAwsRedshiftSnapshotCopyGrantCreate fuel d meta w
      = Some (Some (Errorf "error creating Redshift Snapshot Copy Grant (%s): %s"
                           [ArgString grantName; ArgError (SdkError err)]),
              d, w1))
  /\ (forall out,
         r = inr out ->
         resourceAwsRedshiftSnapshotCopyGrantCreate fuel d meta w
         = resourceAwsRedshiftSnapshotCopyGrantRead fuel
             (mkResourceData grantName (prior d) (attrs d)) meta w1).
Proof.
  intros grantName input Hcall w1.
  assert (Hinput : create_input d = input).
  { unfold create_input, GetOk_kms_key_id, input, grantName.
    destruct (String.eqb (kms_key_id (attrs d)) ""); reflexivity. }
  unfold resourceAwsRedshiftSnapshotCopyGrantCreate, call_Create.
  rewrite Hinput, Hcall. split.
  - intros err ->. reflexivity.
  - intros out ->. reflexivity.
Qed.

(** C8. [Exists] has two answers over the retried lookup: it returns
    [(true, nil)] exactly when the lookup yields a grant and no error,
    [(false, err)] when the lookup yields the error [err], and
    [(false, nil)] when the lookup yields neither. *)
Theorem exists_two_states fuel d meta w g e w' :
  findAwsRedshiftSnapshotCopyGrantWithRetry fuel w (Id d) = Some ((g, e), w') ->
  (is_Some g -> e = None ->
   resourceAwsRedshiftSnapshotCopyGrantExists fuel d meta w = Some (true, None, w'))
  /\ (forall err,
         e = Some err ->
         resourceAwsRedshiftSnapshotCopyGrantExists fuel d meta w
         = Some (false, Some err, w'))
  /\ (g = None -> e = None ->
      resourceAwsRedshiftSnapshotCopyGrantExists fuel d meta w
      = Some (false, None, w'))
  /\ (forall err w2,
         resourceAwsRedshiftSnapshotCopyGrantExists fuel d meta w
         = Some (true, err, w2) ->
         is_Some g /\ e = None /\ err = None).
Proof.
  intros Hrun. unfold resourceAwsRedshiftSnapshotCopyGrantExists. rewrite Hrun.
  split; [|split; [|split]].
  - intros [grant ->] ->. reflexivity.
  - intros err ->. destruct g; reflexivity.
  - intros -> ->. reflexivity.
  - intros err w2. destruct e, g; try discriminate.
    intros [= <- <-]. repeat split. eexists; reflexivity.
Qed.
End Callbacks.

(** ** What the lookups leave alone *)

Section Frame.
Context {conn : Type} `{Redshift conn} `{Clock} `{KeyValueTags}.
Context {A : Type} (obs : conn -> A).
Hypothesis describe_keeps :
  forall input c, obs (snd (DescribeSnapshotCopyGrants input c)) = obs c.

Lemma find_frame fuel grantName :
  forall w mk r w',
    findAwsRedshiftSnapshotCopyGrant fuel w grantName mk = Some (r, w') ->
    obs (remote w') = obs (remote w).
Proof.
  induction fuel as [|fuel IH]; intros w mk r w'; simpl; [discriminate|].
  unfold call_Describe.
  pose proof (describe_keeps (describe_input grantName mk) (remote w)) as Hkeep.
  destruct (DescribeSnapshotCopyGrants (describe_input grantName mk) (remote w))
    as [[err|out] c1]; simpl in Hkeep.
  - intros [= <- <-]. exact Hkeep.
  - destruct (getAwsRedshiftSnapshotCopyGrant (SnapshotCopyGrants out) grantName).
    + intros [= <- <-]. exact Hkeep.
    + destruct (Marker out).
      * intros Hrun. apply IH in Hrun. rewrite Hrun. exact Hkeep.
      * intros [= <- <-]. exact Hkeep.
Qed.

Lemma retry_poll_frame decide fuel grantName n :
  forall last st err st',
    retry_loop last n (poll_with decide fuel grantName) st = Some (err, st') ->
    obs (remote (snd st')) = obs (remote (snd st)).
Proof.
  induction n as [|n IH]; intros last st err st'; simpl.
  - intros [= <- <-]. reflexivity.
  - unfold poll_with at 1.
    destruct (findAwsRedshiftSnapshotCopyGrant fuel (snd st) grantName None)
      as [[r w]|] eqn:Hfind; [|discriminate].
    apply find_frame in Hfind.
    destruct (decide r) as [rerr|].
    + destruct (Retryable rerr).
      * intros Hrun. apply IH in Hrun. rewrite Hrun. exact Hfind.
      * intros [= <- <-]. exact Hfind.
    + intros [= <- <-]. exact Hfind.
Qed.

Lemma findWithRetry_frame fuel w grantName r w' :
  findAwsRedshiftSnapshotCopyGrantWithRetry fuel w grantName = Some (r, w') ->
  obs (remote w') = obs (remote w).
Proof.
  rewrite findWithRetry_unfold.
  destruct (retry_loop _ _ _ _) as [[err [g1 w1]]|] eqn:Hrun; [|discriminate].
  apply retry_poll_frame in Hrun. simpl in Hrun.
  destruct (isResourceTimeoutError err).
  - destruct (findAwsRedshiftSnapshotCopyGrant fuel w1 grantName None)
      as [[[g2 e2] w2]|] eqn:Hfind; [|discriminate].
    apply find_frame in Hfind.
    destruct e2; intros [= <- <-]; rewrite Hfind; exact Hrun.
  - destruct err; intros [= <- <-]; exact Hrun.
Qed.

Lemma read_frame fuel d meta w err d' w' :
  resourceAwsRedshiftSnapshotCopyGrantRead fuel d meta w = Some (err, d', w') ->
  obs (remote w') = obs (remote w).
Proof.
  unfold resourceAwsRedshiftSnapshotCopyGrantRead.
  destruct (findAwsRedshiftSnapshotCopyGrantWithRetry fuel w (Id d))
    as [[[g e] w1]|] eqn:Hrun; [|discriminate].
  apply findWithRetry_frame in Hrun.
  destruct e, g; intros [= <- <- <-]; exact Hrun.
Qed.
End Frame.

Section Update.
Context {conn : Type} `{Redshift conn} `{Clock} `{KeyValueTags}.

(** [Read] makes describe calls only. *)
Lemma read_calls fuel d meta w err d' w' :
  resourceAwsRedshiftSnapshotCopyGrantRead fuel d meta w = Some (err, d', w') ->
  exists l, calls w' = calls w ++ l /\ Forall (fun c => is_mutation c = false) l.
Proof.
  unfold resourceAwsRedshiftSnapshotCopyGrantRead.
  destruct (findAwsRedshiftSnapshotCopyGrantWithRetry fuel w (Id d))
    as [[[g e] w1]|] eqn:Hrun; [|discriminate].
  apply findWithRetry_returns in Hrun as (l & Hcalls & Hdesc & _).
  destruct e, g; intros [= <- <- <-]; exists l; split; assumption.
Qed.

(** C5, as amended.  [Update] changes the tags of the remote grant and
    nothing else: it calls the tag mutation exactly when the tags have
    changed, it calls no other mutation, so that whatever part of the
    account the tag mutation and the describe calls leave alone is left
    alone, and it finishes with [Read], unless the tag mutation fails:
    then it returns the error wrapped, at once. *)
Theorem update_changes_tags_only fuel d meta w :
  (HasChange_tags d = false ->
   resourceAwsRedshiftSnapshotCopyGrantUpdate fuel d meta w
   = resourceAwsRedshiftSnapshotCopyGrantRead fuel d meta w)
  /\ (HasChange_tags d = true ->
      forall r c1,
        RedshiftUpdateTags (arn (attrs d)) (tags (prior d)) (tags (attrs d))
                           (remote w) = (r, c1) ->
        let w1 :=
          mkWorld c1
            (calls w ++ [CallUpdateTags (arn (attrs d)) (tags (prior d))
                                        (tags (attrs d)) r]) in
        match r with
        | None =>
            resourceAwsRedshiftSnapshotCopyGrantUpdate fuel d meta w
            = resourceAwsRedshiftSnapshotCopyGrantRead fuel d meta w1
        | Some e =>
            resourceAwsRedshiftSnapshotCopyGrantUpdate fuel d meta w
            = Some (Some (Errorf
                            "error updating Redshift Snapshot Copy Grant (%s) tags: %s"
                            [ArgString (arn (attrs d)); ArgError e]),
                    d, w1)
        end)
  /\ (forall err d' w',
         resourceAwsRedshiftSnapshotCopyGrantUpdate fuel d meta w
         = Some (err, d', w') ->
         exists l,
           calls w' = calls w ++ l
           /\ Forall (fun c => is_mutation c = true -> is_tag_mutation c = true) l
           /\ (HasChange_tags d = false ->
               Forall (fun c => is_mutation c = false) l))
  /\ (forall (A : Type) (obs : conn -> A),
         (forall input c,
             obs (snd (DescribeSnapshotCopyGrants input c)) = obs c) ->
         (forall identifier o n c,
             obs (snd (RedshiftUpdateTags identifier o n c)) = obs c) ->
         forall err d' w',
           resourceAwsRedshiftSnapshotCopyGrantUpdate fuel d meta w
           = Some (err, d', w') ->
           obs (remote w') = obs (remote w)).
Proof.
  unfold resourceAwsRedshiftSnapshotCopyGrantUpdate, GetChange_tags, call_UpdateTags.
  split; [|split; [|split]].
  - intros ->. reflexivity.
  - intros -> r c1 ->. simpl. destruct r; reflexivity.
  - intros err d' w'. destruct (HasChange_tags d).
    + destruct (RedshiftUpdateTags _ _ _ _) as [[e|] c1].
      * intros [= <- <- <-]. eexists. split; [reflexivity|].
        split; [repeat constructor | discriminate].
      * intros Hread. apply read_calls in Hread as (l & Hcalls & Hdesc).
        simpl in Hcalls. eexists. rewrite Hcalls, <- app_assoc.
        split; [reflexivity|]. split; [|discriminate].
        constructor; [reflexivity|].
        eapply Forall_impl; [exact Hdesc|]. simpl. intros c Hc. congruence.
    + intros Hread. apply read_calls in Hread as (l & Hcalls & Hdesc).
      exists l. split; [exact Hcalls|]. split; [|intros _; exact Hdesc].
      eapply Forall_impl; [exact Hdesc|]. simpl. intros c Hc. congruence.
  - intros A obs Hdescribe Htags err d' w'. destruct (HasChange_tags d).
    + pose proof (Htags (arn (attrs d)) (tags (prior d)) (tags (attrs d)) (remote w))
        as Hkeep.
      destruct (RedshiftUpdateTags _ _ _ _) as [[e|] c1]; simpl in Hkeep.
      * intros [= <- <- <-]. exact Hkeep.
      * intros Hread. apply (read_frame obs Hdescribe) in Hread.
        rewrite Hread. exact Hkeep.
    + apply (read_frame obs Hdescribe).
Qed.
End Update.

(** ** Waiting for the deletion *)

Section Waiting.
Context {conn : Type} `{Redshift conn} `{Clock}.

(** When the lookup reports the absence of the grant with its own
    [NotFoundError], the helper that waits for the deletion returns an
    error. *)
Lemma wait_not_found_is_error fuel w grantName message input w1 :
  findAwsRedshiftSnapshotCopyGrant fuel w grantName None
  = Some ((None, Some (NotFoundError message input)), w1) ->
  waitForAwsRedshiftSnapshotCopyGrantToBeDeleted fuel w grantName
  = Some (Some (Errorf "Error waiting for snapshot copy grant to be deleted: %s"
                       [ArgError (NotFoundError message input)]), w1).
Proof.
  intros Hfind.
  unfold waitForAwsRedshiftSnapshotCopyGrantToBeDeleted, Retry.
  destruct (attempts_within (3 * Minute)) as [|n]; simpl.
  - rewrite Hfind. reflexivity.
  - unfold waitToBeDeleted_func at 1. simpl. rewrite Hfind. reflexivity.
Qed.
(** X6.  When the helper that waits for the deletion returns [nil], either
    the last describe call has failed with the code
    [SnapshotCopyGrantNotFoundFault], or the retrying has ended on the
    timeout and the final lookup has found the grant. *)
Lemma wait_nil_cases fuel w grantName w' :
  waitForAwsRedshiftSnapshotCopyGrantToBeDeleted fuel w grantName = Some (None, w') ->
  (exists l input message,
      calls w' = l ++ [CallDescribe input
                         (inl (AwsError ErrCodeSnapshotCopyGrantNotFoundFault message))])
  \/ (exists g w1 grant,
         Retry (3 * Minute) (waitToBeDeleted_func fuel grantName) (None, w)
         = Some (Some TimeoutError, (g, w1))
         /\ findAwsRedshiftSnapshotCopyGrant fuel w1 grantName None
            = Some ((Some grant, None), w')).
Proof.
  assert (Hlast : forall w0 g e w2,
             findAwsRedshiftSnapshotCopyGrant fuel w0 grantName None
             = Some ((g, e), w2) ->
             isAWSErr e ErrCodeSnapshotCopyGrantNotFoundFault "" = true ->
             exists l input message,
               calls w2 = l ++ [CallDescribe input
                                  (inl (AwsError ErrCodeSnapshotCopyGrantNotFoundFault
                                                 message))]).
  { intros w0 g e w2 Hf Hcode. apply isAWSErr_code in Hcode as [message ->].
    apply find_returns in Hf as (l & Hcalls & _ & _ & Hres).
    destruct Hres as [(grant & _ & [=] & _)|(_ & err & [= <-] & Herr)].
    destruct Herr as [Hnf|(s & input & [= <-] & Hl)]; [discriminate|].
    apply last_Some in Hl as [l' ->].
    exists (calls w0 ++ l'), input, message. rewrite Hcalls, <- app_assoc. reflexivity. }
  unfold waitForAwsRedshiftSnapshotCopyGrantToBeDeleted, Retry.
  destruct (retry_loop _ _ _ _) as [[err [g1 w1]]|] eqn:Hretry; [|discriminate].
  pose proof Hretry as Hrun.
  rewrite (retry_loop_ext _ _ (waitToBeDeleted_func_poll fuel grantName)) in Hrun.
  apply retry_poll_returns in Hrun as (l & _ & _ & _ & Hend).
  inversion Hend as [Hn Hl|w0 l0 l1 [g0 e0] w2 err0 Hw0 Hl Hf Hw2 Hne Hc Hd]; subst.
  - simpl.
    destruct (findAwsRedshiftSnapshotCopyGrant fuel _ grantName None)
      as [[[g2 e2] w2]|] eqn:Hf; [|discriminate].
    destruct (isAWSErr e2 ErrCodeSnapshotCopyGrantNotFoundFault "") eqn:Hcode.
    + intros [= <-]. left. apply (Hlast _ _ _ _ Hf Hcode).
    + destruct e2 as [e2|]; [discriminate|]. intros [= <-]. right.
      destruct (find_one_of_two _ _ _ _ _ _ _ Hf) as [[[grant ->] _]|[_ [x [=]]]].
      eexists _, _, grant. split; [reflexivity | exact Hf].
  - destruct (wait_decide (g1, e0)) as [rerr|] eqn:Hdec.
    + destruct Hd as [-> _].
      rewrite (wait_decide_no_timeout _ _ _ _ _ _ Hf Hdec). discriminate.
    + subst err. simpl. intros [= <-]. left.
      apply (Hlast _ _ _ _ Hf). unfold wait_decide in Hdec. simpl in Hdec.
      destruct (isAWSErr e0 ErrCodeSnapshotCopyGrantNotFoundFault "");
        [reflexivity|].
      destruct (find_one_of_two _ _ _ _ _ _ _ Hf) as [[[grant ->] _]|[-> [x ->]]];
        discriminate.
Qed.

(** C10.  When the timeout of [resource.Retry] strikes before a retried
    lookup has completed, and the final lookup finds the grant, the
    helper that waits for the deletion returns [nil]: the [nil] error of
    the final lookup is returned although the grant is still listed and
    no lookup has failed with the code [SnapshotCopyGrantNotFoundFault]. *)
Theorem wait_confirms_listed_grant fuel w grantName grant w' :
  attempts_within (3 * Minute) = 0 ->
  findAwsRedshiftSnapshotCopyGrant fuel w grantName None
  = Some ((Some grant, None), w') ->
  Retry (3 * Minute) (waitToBeDeleted_func fuel grantName) (None, w)
  = Some (Some TimeoutError, (None, w))
  /\ waitForAwsRedshiftSnapshotCopyGrantToBeDeleted fuel w grantName
     = Some (None, w').
Proof.
  intros Hnone Hfind.
  unfold waitForAwsRedshiftSnapshotCopyGrantToBeDeleted, Retry.
  rewrite Hnone. cbn [retry_loop default isResourceTimeoutError].
  split; [reflexivity|]. rewrite Hfind. reflexivity.
Qed.
End Waiting.

(** On the service that lists the grant for ever, every lookup finds it
    with one call. *)
Lemma listed_found (w : World nat) :
  findAwsRedshiftSnapshotCopyGrant (H := scripted listed) 1 w "a" None
  = Some ((Some grant_a, None),
          mkWorld (S (remote w))
            (calls w ++ [CallDescribe (mkDescribeInput None (Some 100%Z) (Some "a"))
                                      (inr (page None [grant_a]))])).
Proof.
  destruct w as [k l]. simpl. unfold call_Describe, listed, script, pages_of. simpl.
  destruct k as [|k]; reflexivity.
Qed.

Lemma listed_retried n :
  forall last g (w : World nat),
    retry_loop last n (waitToBeDeleted_func (H := scripted listed) 1 "a") (g, w)
    = Some (Some (match n with
                  | O => default TimeoutError last
                  | S _ =>
                      Errorf "[DEBUG] Grant still exists while expected to be deleted: %s"
                             [ArgString "a"]
                  end),
            (match n with O => g | S _ => Some grant_a end,
             mkWorld (n + remote w)
               (calls w ++
                replicate n
                  (CallDescribe (mkDescribeInput None (Some 100%Z) (Some "a"))
                                (inr (page None [grant_a])))))).
Proof.
  induction n as [|n IH]; intros last g w.
  - simpl. rewrite app_nil_r. destruct w; reflexivity.
  - cbn [retry_loop]. unfold waitToBeDeleted_func at 1. cbn [snd].
    rewrite listed_found. cbn [isAWSErr RetryableError Retryable Err].
    rewrite IH. cbn [remote calls replicate].
    rewrite <- app_assoc, Nat.add_succ_r. destruct n; reflexivity.
Qed.

(** On a service that lists the grant [a] at every call, when [n + 1]
    lookups fit in the 3 minutes, the helper that waits for the deletion
    of [a] makes them all and returns the error of the last one, wrapped:
    the grant still exists. *)
Lemma wait_refuses_listed_grant n :
  waitForAwsRedshiftSnapshotCopyGrantToBeDeleted
    (H := scripted listed) (H0 := clock (S n)) 1 (fresh 0) "a"
  = Some (Some (Errorf "Error waiting for snapshot copy grant to be deleted: %s"
                  [ArgError
                     (Errorf "[DEBUG] Grant still exists while expected to be deleted: %s"
                             [ArgString "a"])]),
          mkWorld (S n)
            (replicate (S n)
               (CallDescribe (mkDescribeInput None (Some 100%Z) (Some "a"))
                             (inr (page None [grant_a]))))).
Proof.
  unfold waitForAwsRedshiftSnapshotCopyGrantToBeDeleted, Retry.
  cbn [attempts_within clock]. rewrite listed_retried.
  cbn [isResourceTimeoutError fresh remote calls app]. rewrite Nat.add_0_r.
  reflexivity.
Qed.

(** * The claims on concrete services *)

(** ** Where the claims fail as they are stated *)

Lemma endless_never_returns fuel :
  forall (w : World nat) mk,
    findAwsRedshiftSnapshotCopyGrant (H := scripted endless) fuel w "a" mk = None.
Proof.
  induction fuel as [|fuel IH]; intros [k l] mk; [reflexivity|].
  cbn [findAwsRedshiftSnapshotCopyGrant]. unfold call_Describe.
  cbn [DescribeSnapshotCopyGrants scripted remote calls].
  assert (Hpage : pages endless k = inr (page (Some "next") []))
    by (destruct k; reflexivity).
  rewrite Hpage. cbn [page SnapshotCopyGrants Marker getAwsRedshiftSnapshotCopyGrant].
  apply IH.
Qed.

Lemma endless_polling_never_returns n fuel :
  findAwsRedshiftSnapshotCopyGrantWithRetry
    (H := scripted endless) (H0 := clock n) fuel (fresh 0) "a" = None
  /\ waitForAwsRedshiftSnapshotCopyGrantToBeDeleted
       (H := scripted endless) (H0 := clock n) fuel (fresh 0) "a" = None.
Proof.
  unfold findAwsRedshiftSnapshotCopyGrantWithRetry,
    waitForAwsRedshiftSnapshotCopyGrantToBeDeleted, Retry.
  cbn [attempts_within clock].
  destruct n as [|n]; cbn [retry_loop isResourceTimeoutError].
  - rewrite endless_never_returns. split; reflexivity.
  - unfold findWithRetry_func at 1, waitToBeDeleted_func at 1.
    rewrite endless_never_returns. split; reflexivity.
Qed.

(** C3 fails as stated: on a service whose every page is empty and carries
    a marker, neither polling helper returns, however many pages it is
    allowed and however many attempts fit in the 3 minutes. *)
Lemma polling_unbounded_on_endless_markers :
  ~ (exists n fuel,
        is_Some (findAwsRedshiftSnapshotCopyGrantWithRetry
                   (H := scripted endless) (H0 := clock n) fuel (fresh 0) "a"))
  /\ ~ (exists n fuel,
           is_Some (waitForAwsRedshiftSnapshotCopyGrantToBeDeleted
                      (H := scripted endless) (H0 := clock n) fuel (fresh 0) "a")).
Proof.
  split; intros (n & fuel & [r Hr]);
    destruct (endless_polling_never_returns n fuel) as [Hfind Hwait];
    congruence.
Qed.

(** C5 fails as stated: when the tag mutation is refused, [Update] returns
    the error wrapped and does not go on with [Read], which would have
    found the grant. *)
Lemma update_stops_on_refused_tags :
  let identifier := "arn:aws:redshift:us-east-1:123456789012:snapshotcopygrant:a" in
  let w1 :=
    mkWorld 0 [CallUpdateTags identifier ∅ {["env" := "prod"]}
                              (Some (SdkError denied))] in
  resourceAwsRedshiftSnapshotCopyGrantUpdate
    (H := scripted tags_refused) (H0 := clock 2) (H1 := plain_tags)
    1 retagged client (fresh 0)
  = Some (Some (Errorf "error updating Redshift Snapshot Copy Grant (%s) tags: %s"
                       [ArgString identifier; ArgError (SdkError denied)]),
          retagged, w1)
  /\ resourceAwsRedshiftSnapshotCopyGrantUpdate
       (H := scripted tags_refused) (H0 := clock 2) (H1 := plain_tags)
       1 retagged client (fresh 0)
     <> resourceAwsRedshiftSnapshotCopyGrantRead
          (H := scripted tags_refused) (H0 := clock 2) (H1 := plain_tags)
          1 retagged client w1.
Proof.
  intros identifier w1.
  assert (Hupdate : resourceAwsRedshiftSnapshotCopyGrantUpdate
                      (H := scripted tags_refused) (H0 := clock 2) (H1 := plain_tags)
                      1 retagged client (fresh 0)
                    = Some (Some (Errorf
                                    "error updating Redshift Snapshot Copy Grant (%s) tags: %s"
                                    [ArgString identifier; ArgError (SdkError denied)]),
                            retagged, w1)) by reflexivity.
  split; [exact Hupdate|]. rewrite Hupdate. discriminate.
Qed.

(** ** Where the claims hold: one run for each *)

(** C1 on a lookup that is led over one page to the page with the grant. *)
Lemma find_follows_markers_witness :
  findAwsRedshiftSnapshotCopyGrant (H := scripted two_pages) 2 (fresh 0) "a" None
  = Some ((Some grant_a, None),
          mkWorld 2
            [CallDescribe (mkDescribeInput None (Some 100%Z) (Some "a"))
                          (inr (page (Some "m1") [grant_b]));
             CallDescribe (mkDescribeInput (Some "m1") (Some 100%Z) None)
                          (inr (page None [grant_b; grant_a]))]).
Proof.
  apply (find_follows_markers (H := scripted two_pages)
           "a" [page (Some "m1") [grant_b]] (fresh 0)
           (inr (page None [grant_b; grant_a])) 2 (Some grant_a, None) 2).
  - constructor; [|constructor]. split.
    + constructor; [discriminate | constructor].
    + eexists. reflexivity.
  - reflexivity.
  - apply (lookup_found "a" _ [grant_b] grant_a [] None).
    + constructor; [discriminate | constructor].
    + reflexivity.
  - simpl. lia.
Defined.

(** C2 on a service that refuses the first describe call. *)
Lemma findWithRetry_classifies_witness :
  findAwsRedshiftSnapshotCopyGrantWithRetry
    (H := scripted all_refused) (H0 := clock 2) 1 (fresh 0) "a"
  = Some ((None,
           Some (Errorf "Error finding snapshot copy grant: %s"
                        [ArgError (SdkError denied)])),
          mkWorld 1 [CallDescribe (mkDescribeInput None (Some 100%Z) (Some "a"))
                                  (inl denied)]).
Proof.
  destruct (findWithRetry_classifies (H := scripted all_refused) (H0 := clock 2)
              1 "a" (None, fresh 0) None (SdkError denied)
              (mkWorld 1 [CallDescribe (mkDescribeInput None (Some 100%Z) (Some "a"))
                                       (inl denied)])
              eq_refl) as (_ & _ & Hstop).
  destruct (Hstop eq_refl) as [_ Hwrap].
  apply (Hwrap (fresh 0) 1). apply retrying_here.
Defined.

(** C3, as amended, on a service that has no grant to list, with room
    for two lookups: after the two retried lookups the helper returns the
    error of the second, with no third lookup; and both helpers return. *)
Lemma polling_is_bounded_witness :
  (exists message input,
      findAwsRedshiftSnapshotCopyGrantWithRetry
        (H := scripted nothing_listed) (H0 := clock 2) 1 (fresh 0) "a"
      = Some ((None,
               Some (Errorf "Error finding snapshot copy grant: %s"
                            [ArgError (NotFoundError message input)])),
              mkWorld 2
                (replicate 2
                   (CallDescribe (mkDescribeInput None (Some 100%Z) (Some "a"))
                                 (inr (page None []))))))
  /\ (exists fuel0,
         is_Some (findAwsRedshiftSnapshotCopyGrantWithRetry
                    (H := scripted nothing_listed) (H0 := clock 2)
                    fuel0 (fresh 0) "a"))
  /\ (exists fuel0,
         is_Some (waitForAwsRedshiftSnapshotCopyGrantToBeDeleted
                    (H := scripted nothing_listed) (H0 := clock 2)
                    fuel0 (fresh 0) "a")).
Proof.
  destruct (polling_is_bounded (H := scripted nothing_listed) (H0 := clock 2)
              1 (fresh 0) "a") as (Hfind & _ & Hreturns).
  split.
  - eexists _, _.
    exact (proj2 (proj2 (Hfind (Some (NotFoundError _ _)) None
                           (mkWorld 2
                              (replicate 2
                                 (CallDescribe
                                    (mkDescribeInput None (Some 100%Z) (Some "a"))
                                    (inr (page None [])))))
                           eq_refl))).
  - apply Hreturns. intros [k l]. exists 1. destruct k; eexists; reflexivity.
Defined.

(** C4 on an account that does not hold the grant to delete. *)
Lemma delete_maps_error_codes_witness :
  resourceAwsRedshiftSnapshotCopyGrantDelete
    (H := account client) (H0 := clock 2) 1 retagged client (fresh [grant_b])
  = Some (None,
          mkWorld [grant_b]
            [CallDelete (mkDeleteInput (Some "a"))
                        (Some (AwsError "SnapshotCopyGrantNotFoundFault" "a"))]).
Proof.
  destruct (delete_maps_error_codes (H := account client) (H0 := clock 2)
              1 retagged client (fresh [grant_b])
              (Some (AwsError "SnapshotCopyGrantNotFoundFault" "a")) [grant_b]
              eq_refl) as (Hgone & _).
  exact (Hgone "a" eq_refl).
Defined.

(** On the account, neither a describe call nor a tag mutation changes a
    name or a key. *)
Lemma account_describe_keeps input (c : list SnapshotCopyGrant) :
  untagged (snd (DescribeSnapshotCopyGrants (Redshift := account client) input c))
  = untagged c.
Proof.
  cbn [DescribeSnapshotCopyGrants account].
  destruct (describe_SnapshotCopyGrantName input) as [name|]; [|reflexivity].
  destruct (existsb (has_name name) c); reflexivity.
Qed.

Lemma account_tags_keep identifier o n (c : list SnapshotCopyGrant) :
  untagged (snd (RedshiftUpdateTags (Redshift := account client) identifier o n c))
  = untagged c.
Proof.
  cbn [RedshiftUpdateTags account snd]. unfold untagged.
  rewrite <- list_fmap_compose. apply list_fmap_ext. intros i g _.
  unfold compose.
  destruct (String.eqb (grant_arn client (SnapshotCopyGrantName g)) identifier);
    reflexivity.
Qed.

(** C5, as amended, on an account of two grants: the names and the keys
    are what they were. *)
Lemma update_changes_tags_only_witness :
  match resourceAwsRedshiftSnapshotCopyGrantUpdate
          (H := account client) (H0 := clock 2) (H1 := plain_tags)
          1 retagged client (fresh [grant_b; mkGrant (Some "key-1") "a" []]) with
  | Some (_, _, w') => untagged (remote w') = [("b", None); ("a", Some "key-1")]
  | None => False
  end.
Proof.
  destruct (update_changes_tags_only (H := account client) (H0 := clock 2)
              (H1 := plain_tags) 1 retagged client
              (fresh [grant_b; mkGrant (Some "key-1") "a" []]))
    as (_ & _ & _ & Hframe).
  specialize (Hframe _ untagged account_describe_keeps account_tags_keep).
  destruct (resourceAwsRedshiftSnapshotCopyGrantUpdate
              (H := account client) (H0 := clock 2) (H1 := plain_tags)
              1 retagged client (fresh [grant_b; mkGrant (Some "key-1") "a" []]))
    as [[[err d'] w']|] eqn:Hrun.
  - exact (Hframe err d' w' eq_refl).
  - vm_compute in Hrun. discriminate Hrun.
Defined.

(** C6 on a service that lists the grant. *)
Lemma read_translates_witness :
  resourceAwsRedshiftSnapshotCopyGrantRead
    (H := scripted listed) (H0 := clock 2) (H1 := plain_tags)
    1 retagged client (fresh 0)
  = Some (None,
          mkResourceData "a" (prior retagged)
            (mkAttributes
               "arn:aws:redshift:us-east-1:123456789012:snapshotcopygrant:a"
               "a" "key-1" {["env" := "prod"]}),
          mkWorld 1 [CallDescribe (mkDescribeInput None (Some 100%Z) (Some "a"))
                                  (inr (page None [grant_a]))]).
Proof.
  destruct (read_translates (H := scripted listed) (H0 := clock 2) (H1 := plain_tags)
              1 retagged client (fresh 0) (Some grant_a) None
              (mkWorld 1 [CallDescribe (mkDescribeInput None (Some 100%Z) (Some "a"))
                                       (inr (page None [grant_a]))])
              eq_refl) as (Hgrant & _).
  exact (Hgrant grant_a eq_refl eq_refl).
Defined.

(** C7 on an account that accepts the new grant. *)
Lemma create_maps_configuration_witness :
  resourceAwsRedshiftSnapshotCopyGrantCreate
    (H := account client) (H0 := clock 2) (H1 := plain_tags)
    1 planned client (fresh [grant_b])
  = resourceAwsRedshiftSnapshotCopyGrantRead
      (H := account client) (H0 := clock 2) (H1 := plain_tags)
      1 (mkResourceData "a" (prior planned) (attrs planned)) client
      (mkWorld [grant_b; grant_a]
         [CallCreate (mkCreateInput (Some "key-1") (Some "a") [mkTag "env" "prod"])
                     (inr (mkCreateOutput grant_a))]).
Proof.
  destruct (create_maps_configuration
              (H := account client) (H0 := clock 2) (H1 := plain_tags)
              1 planned client (fresh [grant_b])
              (inr (mkCreateOutput grant_a)) [grant_b; grant_a] eq_refl)
    as (_ & Hcreated).
  exact (Hcreated (mkCreateOutput grant_a) eq_refl).
Defined.

(** C8 on a service that lists the grant. *)
Lemma exists_two_states_witness :
  resourceAwsRedshiftSnapshotCopyGrantExists
    (H := scripted listed) (H0 := clock 2) 1 retagged client (fresh 0)
  = Some (true, None,
          mkWorld 1 [CallDescribe (mkDescribeInput None (Some 100%Z) (Some "a"))
                                  (inr (page None [grant_a]))]).
Proof.
  destruct (exists_two_states (H := scripted listed) (H0 := clock 2)
              1 retagged client (fresh 0) (Some grant_a) None
              (mkWorld 1 [CallDescribe (mkDescribeInput None (Some 100%Z) (Some "a"))
                                       (inr (page None [grant_a]))])
              eq_refl) as (Hyes & _).
  apply Hyes; [eexists; reflexivity | reflexivity].
Defined.

(** C9 on a service that has no grant to list, with room for two
    lookups: the error comes after two lookups. *)
Lemma findWithRetry_one_of_two_witness :
  (exists message input w',
      findAwsRedshiftSnapshotCopyGrantWithRetry
        (H := scripted nothing_listed) (H0 := clock 2) 1 (fresh 0) "a"
      = Some ((None,
               Some (Errorf "Error finding snapshot copy grant: %s"
                            [ArgError (NotFoundError message input)])), w')
      /\ lookups (calls w') = 2)
  /\ (exists fuel0,
         is_Some (findAwsRedshiftSnapshotCopyGrantWithRetry
                    (H := scripted nothing_listed) (H0 := clock 2)
                    fuel0 (fresh 0) "a")).
Proof.
  destruct (findWithRetry_one_of_two
              (H := scripted nothing_listed) (H0 := clock 2) (H1 := plain_tags)
              1 (fresh 0) "a") as (_ & Hreturns & Hpersists & _).
  split.
  - apply Hpersists. intros [k l]. eexists _, _, _. destruct k; reflexivity.
  - apply Hreturns. intros [k l]. exists 1. destruct k; eexists; reflexivity.
Defined.

(** C10 on a service that lists the grant [a] at every call, when no
    lookup fits in the 3 minutes: the one describe call returns the grant,
    and the helper returns [nil]. *)
Lemma wait_confirms_listed_grant_witness :
  waitForAwsRedshiftSnapshotCopyGrantToBeDeleted
    (H := scripted listed) (H0 := clock 0) 1 (fresh 0) "a"
  = Some (None,
          mkWorld 1
            [CallDescribe (mkDescribeInput None (Some 100%Z) (Some "a"))
                          (inr (page None [grant_a]))]).
Proof.
  exact (proj2 (wait_confirms_listed_grant
                  (H := scripted listed) (H0 := clock 0) 1 (fresh 0) "a" grant_a
                  (mkWorld 1
                     [CallDescribe (mkDescribeInput None (Some 100%Z) (Some "a"))
                                   (inr (page None [grant_a]))])
                  eq_refl eq_refl)).
Defined.

(** * Further properties of the code *)

(** ** The search of one page, both ways *)

Lemma get_Some_split grants grantName g :
  getAwsRedshiftSnapshotCopyGrant grants grantName = Some g ->
  exists before after,
    grants = before ++ g :: after
    /\ absent grantName before
    /\ SnapshotCopyGrantName g = grantName.
Proof.
  induction grants as [|x grants IH]; simpl; [discriminate|].
  destruct (String.eqb (SnapshotCopyGrantName x) grantName) eqn:E.
  - intros [= <-]. exists [], grants.
    split; [reflexivity|]. split; [constructor | apply String.eqb_eq, E].
  - intros Hrest. destruct (IH Hrest) as (before & after & -> & Hb & Hg).
    exists (x :: before), after. split; [reflexivity|].
    split; [|exact Hg]. constructor; [apply String.eqb_neq, E | exact Hb].
Qed.

(** X1. [getAwsRedshiftSnapshotCopyGrant] returns a grant exactly when that
    grant is the first of the slice with the requested name: no grant before
    it has the name, whatever comes after it, another grant of the same
    name included. *)
Theorem get_is_first_match grants grantName g :
  getAwsRedshiftSnapshotCopyGrant grants grantName = Some g <->
  exists before after,
    grants = before ++ g :: after
    /\ absent grantName before
    /\ SnapshotCopyGrantName g = grantName.
Proof.
  split.
  - apply get_Some_split.
  - intros (before & after & -> & Hb & Hg). apply get_first; assumption.
Qed.

(** X2. [getAwsRedshiftSnapshotCopyGrant] returns [nil] exactly when no
    grant of the slice has the requested name; so it does on the empty
    slice, and the comparison of the names is exact. *)
Theorem get_nil_iff_absent grants grantName :
  getAwsRedshiftSnapshotCopyGrant grants grantName = None <->
  forall g, In g grants -> SnapshotCopyGrantName g <> grantName.
Proof.
  split.
  - intros Hnone g Hin. apply get_None_absent in Hnone.
    unfold absent in Hnone. rewrite List.Forall_forall in Hnone.
    apply Hnone, Hin.
  - intros Hall. apply get_absent. unfold absent.
    apply List.Forall_forall. exact Hall.
Qed.

(** ** Every lookup that returns is a walk along the markers *)

Section WalkBack.
Context {conn : Type} `{Redshift conn}.

Lemma find_walk_back grantName fuel :
  forall w mk res w',
    findAwsRedshiftSnapshotCopyGrant fuel w grantName mk = Some (res, w') ->
    exists ps r,
      Forall (passes_on grantName) ps
      /\ length ps < fuel
      /\ serve (remote w) (requests_from grantName mk ps)
         = ((inr <$> ps) ++ [r], remote w')
      /\ calls w'
         = calls w ++ zip_with CallDescribe (requests_from grantName mk ps)
                               ((inr <$> ps) ++ [r])
      /\ lookup_result grantName
           (default (describe_input grantName mk)
                    (last (requests_from grantName mk ps)))
           r res.
Proof.
  induction fuel as [|fuel IH]; intros w mk res w'; [discriminate|].
  cbn [findAwsRedshiftSnapshotCopyGrant]. unfold call_Describe.
  destruct (DescribeSnapshotCopyGrants (describe_input grantName mk) (remote w))
    as [r0 c1] eqn:Hcall.
  assert (Hone : forall r : DescribeResult,
             DescribeSnapshotCopyGrants (describe_input grantName mk) (remote w)
             = (r, c1) ->
             serve (remote w) (requests_from grantName mk []) = ((inr <$> []) ++ [r], c1)).
  { intros r Hr. cbn [requests_from fmap list_fmap serve app]. rewrite Hr.
    reflexivity. }
  destruct r0 as [err|[marker grants]].
  - intros [= <- <-]. exists [], (inl err).
    split; [constructor|]. split; [simpl; lia|]. split; [apply Hone, Hcall|].
    split; [reflexivity | constructor].
  - cbn [SnapshotCopyGrants Marker].
    destruct (getAwsRedshiftSnapshotCopyGrant grants grantName) as [grant|] eqn:Hget.
    + intros [= <- <-]. exists [], (inr (mkDescribeOutput marker grants)).
      split; [constructor|]. split; [simpl; lia|]. split; [apply Hone, Hcall|].
      split; [reflexivity|].
      apply get_Some_split in Hget as (before & after & -> & Hb & Hg).
      constructor; assumption.
    + apply get_None_absent in Hget. destruct marker as [m|].
      * intros Hrun.
        apply IH in Hrun as (ps & r & Hpass & Hlen & Hserve & Hcalls & Hres).
        set (p := mkDescribeOutput (Some m) grants) in *.
        assert (Hp : is_Some (Marker p)) by (eexists; reflexivity).
        exists (p :: ps), r. split.
        { constructor; [split; assumption | exact Hpass]. }
        split; [simpl; lia|].
        rewrite (requests_from_cons _ _ _ _ Hp).
        rewrite (last_requests_from_cons grantName mk p ps _ Hp).
        rewrite (last_requests_from_default _ _ _ _
                   (describe_input grantName (Marker p))).
        cbn [remote calls] in Hserve, Hcalls.
        split; [|split; [|exact Hres]].
        -- cbn [serve fmap list_fmap app]. rewrite Hcall.
           change (Marker p) with (Some m). rewrite Hserve. reflexivity.
        -- rewrite Hcalls, <- app_assoc. reflexivity.
      * intros [= <- <-]. exists [], (inr (mkDescribeOutput None grants)).
        split; [constructor|]. split; [simpl; lia|]. split; [apply Hone, Hcall|].
        split; [reflexivity|]. constructor. exact Hget.
Qed.

(** X3. Whenever [findAwsRedshiftSnapshotCopyGrant] returns, the service has
    led it through pages that each lack the grant and carry a marker, and
    then given the answer that decides the result: the requests sent are
    those of the walk and no other, and the result is the first grant of
    the last page, the [NotFoundError] for a last page without the grant
    and without a marker, or the error of the last call. *)
Theorem find_is_a_walk fuel w grantName res w' :
  findAwsRedshiftSnapshotCopyGrant fuel w grantName None = Some (res, w') ->
  exists ps r,
    Forall (passes_on grantName) ps
    /\ length ps < fuel
    /\ serve (remote w) (lookup_requests grantName ps)
       = ((inr <$> ps) ++ [r], remote w')
    /\ calls w'
       = calls w ++ zip_with CallDescribe (lookup_requests grantName ps)
                             ((inr <$> ps) ++ [r])
    /\ lookup_result grantName
         (default (mkDescribeInput None (Some 100%Z) (Some grantName))
                  (last (lookup_requests grantName ps)))
         r res.
Proof.
  intros Hrun. apply find_walk_back in Hrun. exact Hrun.
Qed.
End WalkBack.

(** X3 on the lookup that is led over one page to the page with the
    grant. *)
Lemma find_is_a_walk_witness :
  exists ps r,
    Forall (passes_on "a") ps
    /\ length ps < 2
    /\ serve (H := scripted two_pages) 0 (lookup_requests "a" ps)
       = ((inr <$> ps) ++ [r], 2)
    /\ [CallDescribe (mkDescribeInput None (Some 100%Z) (Some "a"))
                     (inr (page (Some "m1") [grant_b]));
        CallDescribe (mkDescribeInput (Some "m1") (Some 100%Z) None)
                     (inr (page None [grant_b; grant_a]))]
       = [] ++ zip_with CallDescribe (lookup_requests "a" ps) ((inr <$> ps) ++ [r])
    /\ lookup_result "a"
         (default (mkDescribeInput None (Some 100%Z) (Some "a"))
                  (last (lookup_requests "a" ps)))
         r (Some grant_a, None).
Proof.
  exact (find_is_a_walk (H := scripted two_pages) 2 (fresh 0) "a"
           (Some grant_a, None)
           (mkWorld 2
              [CallDescribe (mkDescribeInput None (Some 100%Z) (Some "a"))
                            (inr (page (Some "m1") [grant_b]));
               CallDescribe (mkDescribeInput (Some "m1") (Some 100%Z) None)
                            (inr (page None [grant_b; grant_a]))])
           eq_refl).
Defined.

(** ** The helpers along a run of lookups *)

Section AlongRuns.
Context {conn : Type} `{Redshift conn} `{Clock}.

Lemma not_found_run_retrying fuel grantName k (w w1 : World conn) :
  lookup_run reports_not_found fuel grantName k w w1 ->
  forall n g0, exists g1,
    retrying (findWithRetry_func fuel grantName) (k + n) (g0, w) n (g1, w1).
Proof.
  induction 1 as [w|k w r w0 w1 Hfind (message & input & ->) _ IH]; intros n g0.
  - exists g0. apply retrying_here.
  - destruct (IH n None) as [g1 Hrest]. exists g1.
    apply (retrying_step _ _ _ (mkRetryError (NotFoundError message input) true)
             (None, w0)); [|reflexivity | exact Hrest].
    unfold findWithRetry_func. cbn [snd]. rewrite Hfind. reflexivity.
Qed.

Lemma listed_run_retrying fuel grantName k (w w1 : World conn) :
  lookup_run lists_grant fuel grantName k w w1 ->
  forall n g0, exists g1,
    retrying (waitToBeDeleted_func fuel grantName) (k + n) (g0, w) n (g1, w1).
Proof.
  induction 1 as [w|k w r w0 w1 Hfind (grant & ->) _ IH]; intros n g0.
  - exists g0. apply retrying_here.
  - destruct (IH n (Some grant)) as [g1 Hrest]. exists g1.
    apply (retrying_step _ _ _
             (mkRetryError
                (Errorf "[DEBUG] Grant still exists while expected to be deleted: %s"
                        [ArgString (SnapshotCopyGrantName grant)]) true)
             (Some grant, w0)); [|reflexivity | exact Hrest].
    unfold waitToBeDeleted_func. cbn [snd]. rewrite Hfind. reflexivity.
Qed.

(** X4. After [k] lookups that have each reported not-found,
    [findAwsRedshiftSnapshotCopyGrantWithRetry] returns what the next
    lookup returns, the error wrapped, provided that this lookup is among
    those that fit in the 3 minutes, or is the first when none fits, and
    that it does not report not-found itself unless it is the last that
    fits.  So a grant that shows within the window is returned, an error
    of the service ends the retrying at once, and no lookup follows the
    last that fits. *)
Theorem findWithRetry_follows_run fuel grantName k (w w1 : World conn) r w2 :
  lookup_run reports_not_found fuel grantName k w w1 ->
  findAwsRedshiftSnapshotCopyGrant fuel w1 grantName None = Some (r, w2) ->
  k < Nat.max 1 (attempts_within (3 * Minute)) ->
  (S k < attempts_within (3 * Minute) -> ~ reports_not_found r) ->
  findAwsRedshiftSnapshotCopyGrantWithRetry fuel w grantName
  = Some (found_or_wrapped r, w2).
Proof.
  intros Hrun Hfind Hk Hlast.
  unfold findAwsRedshiftSnapshotCopyGrantWithRetry, Retry.
  destruct (attempts_within (3 * Minute)) as [|N] eqn:Hroom.
  - assert (k = 0) by lia. subst k.
    inversion Hrun; subst.
    cbn [retry_loop default isResourceTimeoutError]. rewrite Hfind.
    destruct r as [g [e|]]; reflexivity.
  - destruct (not_found_run_retrying _ _ _ _ _ Hrun (S N - k) None)
      as [g1 Hcome].
    replace (k + (S N - k)) with (S N) in Hcome by lia.
    destruct (retrying_loop _ _ _ _ _ Hcome None) as (last & ->).
    destruct (S N - k) as [|n] eqn:Hleft; [lia|].
    cbn [retry_loop]. unfold findWithRetry_func at 1. cbn [snd]. rewrite Hfind.
    destruct r as [g e].
    apply find_returns in Hfind as (l & _ & _ & _ & Hres).
    destruct Hres as [(grant & -> & -> & _)|(-> & err & -> & Herr)];
      [reflexivity|].
    destruct Herr as [Hnf|(s & input & -> & _)]; [|reflexivity].
    rewrite Hnf. cbn [RetryableError Retryable Err].
    destruct err as [| message input | |]; try discriminate.
    destruct n as [|n]; [reflexivity|].
    exfalso. apply Hlast; [lia|]. eexists _, _. reflexivity.
Qed.

(** X5. After [k] lookups that have each found the grant,
    [waitForAwsRedshiftSnapshotCopyGrantToBeDeleted] ends on the next
    lookup when it is among those that fit in the 3 minutes and does not
    find the grant: it returns [nil] when that lookup failed with the code
    [SnapshotCopyGrantNotFoundFault] and the error of the lookup wrapped
    otherwise, a [NotFoundError] too.  When the next lookup is the last
    that fits and finds the grant, the helper returns the error that the
    grant still exists, wrapped, and makes no further lookup.  When no
    lookup fits, the helper returns on its one lookup, and [nil] when that
    finds the grant. *)
Theorem waitToBeDeleted_follows_run fuel grantName k (w w1 : World conn) r w2 :
  lookup_run lists_grant fuel grantName k w w1 ->
  findAwsRedshiftSnapshotCopyGrant fuel w1 grantName None = Some (r, w2) ->
  (k < attempts_within (3 * Minute) ->
   ~ lists_grant r ->
   waitForAwsRedshiftSnapshotCopyGrantToBeDeleted fuel w grantName
   = Some (deleted_or_wrapped r, w2))
  /\ (S k = attempts_within (3 * Minute) ->
      forall grant,
        r = (Some grant, None) ->
        waitForAwsRedshiftSnapshotCopyGrantToBeDeleted fuel w grantName
        = Some (Some (Errorf
                        "Error waiting for snapshot copy grant to be deleted: %s"
                        [ArgError
                           (Errorf
                              "[DEBUG] Grant still exists while expected to be deleted: %s"
                              [ArgString (SnapshotCopyGrantName grant)])]),
                w2))
  /\ (attempts_within (3 * Minute) = 0 ->
      k = 0 ->
      waitForAwsRedshiftSnapshotCopyGrantToBeDeleted fuel w grantName
      = Some (deleted_or_wrapped r, w2)).
Proof.
  intros Hrun Hfind.
  assert (Hloop : k < attempts_within (3 * Minute) ->
                  exists n,
                    attempts_within (3 * Minute) = k + S n
                    /\ Retry (3 * Minute) (waitToBeDeleted_func fuel grantName)
                             (None, w)
                       = match waitToBeDeleted_func fuel grantName (None, w1) with
                         | None => None
                         | Some (None, st') => Some (None, st')
                         | Some (Some rerr, st') =>
                             if Retryable rerr
                             then retry_loop (Some (Err rerr)) n
                                    (waitToBeDeleted_func fuel grantName) st'
                             else Some (Some (Err rerr), st')
                         end).
  { intros Hk.
    destruct (listed_run_retrying _ _ _ _ _ Hrun
                (attempts_within (3 * Minute) - k) None) as [g1 Hcome].
    replace (k + (attempts_within (3 * Minute) - k))
      with (attempts_within (3 * Minute)) in Hcome by lia.
    destruct (retrying_loop _ _ _ _ _ Hcome None) as (last & Hsame).
    destruct (attempts_within (3 * Minute) - k) as [|n] eqn:Hleft; [lia|].
    exists n. split; [lia|]. unfold Retry. rewrite Hsame.
    cbn [retry_loop]. unfold waitToBeDeleted_func. cbn [snd]. reflexivity. }
  split; [|split].
  - intros Hk Hnot. destruct (Hloop Hk) as (n & _ & Hretry).
    unfold waitForAwsRedshiftSnapshotCopyGrantToBeDeleted. rewrite Hretry.
    unfold waitToBeDeleted_func. cbn [snd]. rewrite Hfind.
    destruct r as [g e]. unfold deleted_or_wrapped. cbn [snd].
    apply find_returns in Hfind as (l & _ & _ & _ & Hres).
    destruct Hres as [(grant & -> & -> & _)|(-> & err & -> & Herr)].
    + exfalso. apply Hnot. eexists. reflexivity.
    + destruct (isAWSErr (Some err) ErrCodeSnapshotCopyGrantNotFoundFault "");
        [reflexivity|].
      cbn [NonRetryableError Retryable Err].
      destruct Herr as [Hnf|(s & input & -> & _)]; [|reflexivity].
      destruct err; try discriminate. reflexivity.
  - intros Hk grant ->.
    destruct Hloop as (n & Hroom & Hretry); [lia|].
    assert (n = 0) by lia. subst n.
    unfold waitForAwsRedshiftSnapshotCopyGrantToBeDeleted. rewrite Hretry.
    unfold waitToBeDeleted_func. cbn [snd]. rewrite Hfind. reflexivity.
  - intros Hroom ->. inversion Hrun; subst.
    unfold waitForAwsRedshiftSnapshotCopyGrantToBeDeleted, Retry.
    rewrite Hroom. cbn [retry_loop default isResourceTimeoutError].
    rewrite Hfind. destruct r as [g e]. unfold deleted_or_wrapped. cbn [snd].
    destruct (isAWSErr e ErrCodeSnapshotCopyGrantNotFoundFault "");
      [reflexivity|]. destruct e; reflexivity.
Qed.
End AlongRuns.

(** X4 on a service on which the grant shows at the second lookup, and on
    a service that has no grant to list: the error of the second lookup,
    the last that fits, is returned with no third lookup. *)
Lemma findWithRetry_follows_run_witness :
  findAwsRedshiftSnapshotCopyGrantWithRetry
    (H := scripted appears_late) (H0 := clock 2) 1 (fresh 0) "a"
  = Some ((Some grant_a, None),
          mkWorld 2
            [CallDescribe (mkDescribeInput None (Some 100%Z) (Some "a"))
                          (inr (page None []));
             CallDescribe (mkDescribeInput None (Some 100%Z) (Some "a"))
                          (inr (page None [grant_a]))])
  /\ exists message input,
      findAwsRedshiftSnapshotCopyGrantWithRetry
        (H := scripted nothing_listed) (H0 := clock 2) 1 (fresh 0) "a"
      = Some ((None,
               Some (Errorf "Error finding snapshot copy grant: %s"
                            [ArgError (NotFoundError message input)])),
              mkWorld 2
                [CallDescribe (mkDescribeInput None (Some 100%Z) (Some "a"))
                              (inr (page None []));
                 CallDescribe (mkDescribeInput None (Some 100%Z) (Some "a"))
                              (inr (page None []))]).
Proof.
  split.
  - apply (findWithRetry_follows_run (H := scripted appears_late) (H0 := clock 2)
             1 "a" 1 (fresh 0)
             (mkWorld 1 [CallDescribe (mkDescribeInput None (Some 100%Z) (Some "a"))
                                      (inr (page None []))])
             (Some grant_a, None)).
    + eapply run_more; [reflexivity | eexists _, _; reflexivity | apply run_none].
    + reflexivity.
    + simpl. lia.
    + intros _ (message & input & [=]).
  - eexists _, _.
    apply (findWithRetry_follows_run (H := scripted nothing_listed) (H0 := clock 2)
             1 "a" 1 (fresh 0)
             (mkWorld 1 [CallDescribe (mkDescribeInput None (Some 100%Z) (Some "a"))
                                      (inr (page None []))])
             (None, Some (NotFoundError _ _))).
    + eapply run_more; [reflexivity | eexists _, _; reflexivity | apply run_none].
    + reflexivity.
    + simpl. lia.
    + simpl. lia.
Defined.

(** X5 on a service on which the grant is listed once more, then gone, and
    on a service that lists the grant for ever: the error of the second
    lookup, the last that fits, is returned with no third lookup. *)
Lemma waitToBeDeleted_follows_run_witness :
  waitForAwsRedshiftSnapshotCopyGrantToBeDeleted
    (H := scripted disappears) (H0 := clock 2) 1 (fresh 0) "a"
  = Some (None,
          mkWorld 2
            [CallDescribe (mkDescribeInput None (Some 100%Z) (Some "a"))
                          (inr (page None [grant_a]));
             CallDescribe (mkDescribeInput None (Some 100%Z) (Some "a"))
                          (inl gone)])
  /\ waitForAwsRedshiftSnapshotCopyGrantToBeDeleted
       (H := scripted listed) (H0 := clock 2) 1 (fresh 0) "a"
     = Some (Some (Errorf
                     "Error waiting for snapshot copy grant to be deleted: %s"
                     [ArgError
                        (Errorf
                           "[DEBUG] Grant still exists while expected to be deleted: %s"
                           [ArgString "a"])]),
             mkWorld 2
               [CallDescribe (mkDescribeInput None (Some 100%Z) (Some "a"))
                             (inr (page None [grant_a]));
                CallDescribe (mkDescribeInput None (Some 100%Z) (Some "a"))
                             (inr (page None [grant_a]))]).
Proof.
  split.
  - refine (proj1 (waitToBeDeleted_follows_run
                     (H := scripted disappears) (H0 := clock 2)
                     1 "a" 1 (fresh 0)
                     (mkWorld 1 [CallDescribe
                                   (mkDescribeInput None (Some 100%Z) (Some "a"))
                                   (inr (page None [grant_a]))])
                     (None, Some (SdkError gone)) _ _ _) _ _).
    + eapply run_more; [reflexivity | eexists; reflexivity | apply run_none].
    + reflexivity.
    + simpl. lia.
    + intros (grant & [=]).
  - refine (proj1 (proj2 (waitToBeDeleted_follows_run
                            (H := scripted listed) (H0 := clock 2)
                            1 "a" 1 (fresh 0)
                            (mkWorld 1 [CallDescribe
                                          (mkDescribeInput None (Some 100%Z) (Some "a"))
                                          (inr (page None [grant_a]))])
                            (Some grant_a, None) _ _ _)) _ grant_a _).
    + eapply run_more; [reflexivity | eexists; reflexivity | apply run_none].
    + reflexivity.
    + reflexivity.
    + reflexivity.
Defined.

(** X6 on a service on which the grant is listed once more, then gone. *)
Lemma wait_nil_cases_witness :
  (exists l input message,
      [CallDescribe (mkDescribeInput None (Some 100%Z) (Some "a"))
                    (inr (page None [grant_a]));
       CallDescribe (mkDescribeInput None (Some 100%Z) (Some "a")) (inl gone)]
      = l ++ [CallDescribe input
                (inl (AwsError ErrCodeSnapshotCopyGrantNotFoundFault message))])
  \/ (exists g w1 grant,
         Retry (H := clock 2) (3 * Minute)
               (waitToBeDeleted_func (H := scripted disappears) 1 "a") (None, fresh 0)
         = Some (Some TimeoutError, (g, w1))
         /\ findAwsRedshiftSnapshotCopyGrant (H := scripted disappears) 1 w1 "a" None
            = Some ((Some grant, None),
                    mkWorld 2
                      [CallDescribe (mkDescribeInput None (Some 100%Z) (Some "a"))
                                    (inr (page None [grant_a]));
                       CallDescribe (mkDescribeInput None (Some 100%Z) (Some "a"))
                                    (inl gone)])).
Proof.
  exact (wait_nil_cases (H := scripted disappears) (H0 := clock 2)
           1 (fresh 0) "a"
           (mkWorld 2
              [CallDescribe (mkDescribeInput None (Some 100%Z) (Some "a"))
                            (inr (page None [grant_a]));
               CallDescribe (mkDescribeInput None (Some 100%Z) (Some "a"))
                            (inl gone)])
           eq_refl).
Defined.

(** ** The calls of the helpers and of the callbacks *)

Section CallsMade.
Context {conn : Type} `{Redshift conn} `{Clock} `{KeyValueTags}.

(** The calls of a run of retried lookups: describe calls, none when the
    run ends with a timeout error, and otherwise one lookup at least and
    as many as there is room for at most. *)
Lemma retry_phase_calls decide fuel grantName n (w : World conn) err g w1 :
  (forall w0 r w' rerr,
      findAwsRedshiftSnapshotCopyGrant fuel w0 grantName None = Some (r, w') ->
      decide r = Some rerr ->
      isResourceTimeoutError (Some (Err rerr)) = false) ->
  retry_loop None n (poll_with decide fuel grantName) (None, w)
  = Some (err, (g, w1)) ->
  exists l,
    calls w1 = calls w ++ l
    /\ Forall (fun c => is_mutation c = false) l
    /\ if isResourceTimeoutError err then lookups l = 0 else 1 <= lookups l <= n.
Proof.
  intros Hstop Hrun.
  apply retry_poll_returns in Hrun as (l & Hcalls & Hdesc & Hcount & Hend).
  exists l. split; [exact Hcalls|]. split; [exact Hdesc|].
  inversion Hend as [Hn Hl|w0 l0 l1 r w2 err0 Hw0 Hl Hf Hw2 Hne Hc Hd]; subst.
  - reflexivity.
  - destruct (decide r) as [rerr|] eqn:Hdec.
    + destruct Hd as [-> _]. rewrite (Hstop _ _ _ _ Hf Hdec). exact Hc.
    + subst err. exact Hc.
Qed.

Lemma findWithRetry_calls fuel w grantName r w' :
  findAwsRedshiftSnapshotCopyGrantWithRetry fuel w grantName = Some (r, w') ->
  exists l,
    calls w' = calls w ++ l
    /\ Forall (fun c => is_mutation c = false) l
    /\ 1 <= lookups l <= attempts_within (3 * Minute) + 1.
Proof.
  rewrite findWithRetry_unfold.
  destruct (retry_loop _ _ _ _) as [[err [g1 w1]]|] eqn:Hrun; [|discriminate].
  apply (retry_phase_calls _ _ _ _ _ _ _ _ (find_decide_no_timeout fuel grantName))
    in Hrun as (l & Hcalls & Hdesc & Hcount).
  destruct (isResourceTimeoutError err).
  - destruct (findAwsRedshiftSnapshotCopyGrant fuel w1 grantName None)
      as [[[g2 e2] w2]|] eqn:Hfind; [|discriminate].
    apply find_returns in Hfind as (l2 & Hcalls2 & Hdesc2 & Hcount2 & _).
    intros Hw. assert (w2 = w') as <- by (destruct e2; injection Hw; auto).
    exists (l ++ l2). rewrite Hcalls2, Hcalls, <- app_assoc, lookups_app.
    split; [reflexivity|]. split; [apply Forall_app; split; assumption | lia].
  - intros Hw. assert (w1 = w') as <- by (destruct err; injection Hw; auto).
    exists l. split; [exact Hcalls|]. split; [exact Hdesc | lia].
Qed.

Lemma waitToBeDeleted_calls fuel w grantName r w' :
  waitForAwsRedshiftSnapshotCopyGrantToBeDeleted fuel w grantName = Some (r, w') ->
  exists l,
    calls w' = calls w ++ l
    /\ Forall (fun c => is_mutation c = false) l
    /\ 1 <= lookups l <= attempts_within (3 * Minute) + 1.
Proof.
  rewrite waitToBeDeleted_unfold.
  destruct (retry_loop _ _ _ _) as [[err [g1 w1]]|] eqn:Hrun; [|discriminate].
  apply (retry_phase_calls _ _ _ _ _ _ _ _ (wait_decide_no_timeout fuel grantName))
    in Hrun as (l & Hcalls & Hdesc & Hcount).
  destruct (isResourceTimeoutError err).
  - destruct (findAwsRedshiftSnapshotCopyGrant fuel w1 grantName None)
      as [[[g2 e2] w2]|] eqn:Hfind; [|discriminate].
    apply find_returns in Hfind as (l2 & Hcalls2 & Hdesc2 & Hcount2 & _).
    intros Hw.
    assert (w2 = w') as <-.
    { destruct (isAWSErr e2 ErrCodeSnapshotCopyGrantNotFoundFault "");
        [|destruct e2]; injection Hw; auto. }
    exists (l ++ l2). rewrite Hcalls2, Hcalls, <- app_assoc, lookups_app.
    split; [reflexivity|]. split; [apply Forall_app; split; assumption | lia].
  - intros Hw. assert (w1 = w') as <- by (destruct err; injection Hw; auto).
    exists l. split; [exact Hcalls|]. split; [exact Hdesc | lia].
Qed.

(** What [Read] leaves of the resource data. *)
Lemma read_outcome fuel d meta w err d' w' :
  resourceAwsRedshiftSnapshotCopyGrantRead fuel d meta w = Some (err, d', w') ->
  Id d' = Id d
  /\ prior d' = prior d
  /\ (err = None ->
      snapshot_copy_grant_name (attrs d') = Id d
      /\ arn (attrs d') = grant_arn meta (Id d))
  /\ (is_Some err -> d' = d).
Proof.
  unfold resourceAwsRedshiftSnapshotCopyGrantRead.
  destruct (findAwsRedshiftSnapshotCopyGrantWithRetry fuel w (Id d))
    as [[[g e] w1]|] eqn:Hrun; [|discriminate].
  apply findWithRetry_returns in Hrun as (l & _ & _ & _ & Hres).
  destruct Hres as [(grant & -> & -> & Hname)|(-> & e0 & -> & _)].
  - simpl. intros [= <- <- <-]. repeat split.
    + exact Hname.
    + intros [x [=]].
  - intros [= <- <- <-]. repeat split; try discriminate.
Qed.

(** X7. [Exists] and [Read] agree: when [Exists] returns, [Read] on the
    same resource data and service returns the same error after the same
    calls, and [Exists] answers [true] exactly when that error is [nil]. *)
Theorem exists_agrees_with_read fuel d meta w b e w1 :
  resourceAwsRedshiftSnapshotCopyGrantExists fuel d meta w = Some (b, e, w1) ->
  (b = true <-> e = None)
  /\ exists d',
      resourceAwsRedshiftSnapshotCopyGrantRead fuel d meta w = Some (e, d', w1).
Proof.
  unfold resourceAwsRedshiftSnapshotCopyGrantExists,
    resourceAwsRedshiftSnapshotCopyGrantRead.
  destruct (findAwsRedshiftSnapshotCopyGrantWithRetry fuel w (Id d))
    as [[[g e0] w0]|] eqn:Hrun; [|discriminate].
  apply findWithRetry_returns in Hrun as (l & _ & _ & _ & Hres).
  destruct Hres as [(grant & -> & -> & _)|(-> & e1 & -> & _)];
    intros [= <- <- <-].
  - split; [split; reflexivity|]. simpl. eexists. reflexivity.
  - split; [split; discriminate|]. eexists. reflexivity.
Qed.

Lemma read_calls_bounded fuel d meta w err d' w' :
  resourceAwsRedshiftSnapshotCopyGrantRead fuel d meta w = Some (err, d', w') ->
  exists l,
    calls w' = calls w ++ l
    /\ Forall (fun c => is_mutation c = false) l
    /\ 1 <= lookups l <= attempts_within (3 * Minute) + 1.
Proof.
  unfold resourceAwsRedshiftSnapshotCopyGrantRead.
  destruct (findAwsRedshiftSnapshotCopyGrantWithRetry fuel w (Id d))
    as [[[g e] w1]|] eqn:Hrun; [|discriminate].
  apply findWithRetry_calls in Hrun.
  intros Hw. assert (w1 = w') as <-; [|exact Hrun].
  destruct e, g; simpl in Hw; injection Hw; auto.
Qed.

(** X8. [Read] and [Exists] only look: every call they make is a describe
    call, and they make one lookup at least and one more at most than the
    attempts that fit in the 3 minutes. *)
Theorem read_and_exists_only_describe fuel d meta w :
  (forall err d' w',
      resourceAwsRedshiftSnapshotCopyGrantRead fuel d meta w = Some (err, d', w') ->
      exists l,
        calls w' = calls w ++ l
        /\ Forall (fun c => is_mutation c = false) l
        /\ 1 <= lookups l <= attempts_within (3 * Minute) + 1)
  /\ (forall b err w',
         resourceAwsRedshiftSnapshotCopyGrantExists fuel d meta w
         = Some (b, err, w') ->
         exists l,
           calls w' = calls w ++ l
           /\ Forall (fun c => is_mutation c = false) l
           /\ 1 <= lookups l <= attempts_within (3 * Minute) + 1).
Proof.
  split.
  - intros err d' w'. apply read_calls_bounded.
  - intros b err w'. unfold resourceAwsRedshiftSnapshotCopyGrantExists.
    destruct (findAwsRedshiftSnapshotCopyGrantWithRetry fuel w (Id d))
      as [[[g e] w1]|] eqn:Hrun; [|discriminate].
    apply findWithRetry_calls in Hrun.
    intros Hw. assert (w1 = w') as <-; [|exact Hrun].
    destruct e, g; injection Hw; auto.
Qed.

(** X9. [Read] is stable: what it stores depends on the ID, on the client
    and on the grant found, not on the attributes stored before, and a
    second [Read] that finds the same grant leaves the resource data as the
    first has left them. *)
Theorem read_is_stable fuel d meta w grant w1 w2 :
  findAwsRedshiftSnapshotCopyGrantWithRetry fuel w (Id d)
  = Some ((Some grant, None), w1) ->
  findAwsRedshiftSnapshotCopyGrantWithRetry fuel w1 (Id d)
  = Some ((Some grant, None), w2) ->
  exists d1,
    resourceAwsRedshiftSnapshotCopyGrantRead fuel d meta w = Some (None, d1, w1)
    /\ resourceAwsRedshiftSnapshotCopyGrantRead fuel d1 meta w1 = Some (None, d1, w2)
    /\ forall d0,
        Id d0 = Id d -> prior d0 = prior d ->
        resourceAwsRedshiftSnapshotCopyGrantRead fuel d0 meta w = Some (None, d1, w1).
Proof.
  intros Hfirst Hsecond. eexists. split; [|split].
  - unfold resourceAwsRedshiftSnapshotCopyGrantRead. rewrite Hfirst. reflexivity.
  - unfold resourceAwsRedshiftSnapshotCopyGrantRead. simpl. rewrite Hsecond.
    reflexivity.
  - intros d0 Hid Hprior. unfold resourceAwsRedshiftSnapshotCopyGrantRead.
    rewrite Hid, Hfirst. simpl. rewrite Hid, Hprior. reflexivity.
Qed.

(** X10. Once the call of [CreateSnapshotCopyGrant] has succeeded, [Create]
    leaves the ID set to the configured grant name whether the [Read] that
    follows succeeds or not; the create call is its first call and its
    only mutation; and when [Create] returns [nil] the name and the ARN
    stored are those of the configured grant name. *)
Theorem create_records_the_grant fuel d meta w out c1 err d' w' :
  CreateSnapshotCopyGrant (create_input d) (remote w) = (inr out, c1) ->
  resourceAwsRedshiftSnapshotCopyGrantCreate fuel d meta w = Some (err, d', w') ->
  Id d' = snapshot_copy_grant_name (attrs d)
  /\ prior d' = prior d
  /\ (exists l,
         calls w' = calls w ++ CallCreate (create_input d) (inr out) :: l
         /\ Forall (fun c => is_mutation c = false) l
         /\ 1 <= lookups l <= attempts_within (3 * Minute) + 1)
  /\ (err = None ->
      snapshot_copy_grant_name (attrs d') = snapshot_copy_grant_name (attrs d)
      /\ arn (attrs d') = grant_arn meta (snapshot_copy_grant_name (attrs d))).
Proof.
  intros Hcall. unfold resourceAwsRedshiftSnapshotCopyGrantCreate, call_Create.
  rewrite Hcall. intros Hread.
  pose proof (read_outcome _ _ _ _ _ _ _ Hread) as (Hid & Hprior & Hok & _).
  destruct (read_calls_bounded _ _ _ _ _ _ _ Hread) as (l & Hcalls & Hdesc & Hcount).
  split; [exact Hid|]. split; [exact Hprior|]. split; [|exact Hok].
  exists l. simpl in Hcalls. rewrite Hcalls, <- app_assoc.
  split; [reflexivity|]. split; assumption.
Qed.
End CallsMade.

Section CallsOfDeleteAndUpdate.
Context {conn : Type} `{Redshift conn} `{Clock} `{KeyValueTags}.

(** X11. [Delete] calls [DeleteSnapshotCopyGrant] once, first, for the grant
    named by the ID, and makes no other mutation: what follows are describe
    calls, none when the delete call has failed, one lookup at least and one
    more at most than the attempts that fit in the 3 minutes when it has
    succeeded. *)
Theorem delete_calls_once fuel d meta w res w' :
  resourceAwsRedshiftSnapshotCopyGrantDelete fuel d meta w = Some (res, w') ->
  exists r l,
    calls w' = calls w ++ CallDelete (mkDeleteInput (Some (Id d))) r :: l
    /\ Forall (fun c => is_mutation c = false) l
    /\ (is_Some r -> l = [])
    /\ (r = None -> 1 <= lookups l <= attempts_within (3 * Minute) + 1).
Proof.
  unfold resourceAwsRedshiftSnapshotCopyGrantDelete, call_Delete.
  destruct (DeleteSnapshotCopyGrant (mkDeleteInput (Some (Id d))) (remote w))
    as [[e|] c1].
  - intros Hw. exists (Some e), [].
    assert (Hw' : calls w'
                  = calls w ++ [CallDelete (mkDeleteInput (Some (Id d))) (Some e)]).
    { destruct (isAWSErr (Some (SdkError e)) ErrCodeSnapshotCopyGrantNotFoundFault "");
        injection Hw as _ <-; reflexivity. }
    split; [exact Hw'|]. split; [constructor|].
    split; [reflexivity | discriminate].
  - intros Hwait. apply waitToBeDeleted_calls in Hwait as (l & Hcalls & Hdesc & Hcount).
    exists None, l. simpl in Hcalls. rewrite Hcalls, <- app_assoc.
    split; [reflexivity|]. split; [exact Hdesc|].
    split; [intros [x [=]] | intros _; exact Hcount].
Qed.

(** X12. [Update] never changes the ID nor the prior state; when it returns
    an error, of the tag mutation or of [Read], the resource data are as
    they were; when it returns [nil], the name and the ARN stored are those
    of the ID. *)
Theorem update_outcome fuel d meta w err d' w' :
  resourceAwsRedshiftSnapshotCopyGrantUpdate fuel d meta w = Some (err, d', w') ->
  Id d' = Id d
  /\ prior d' = prior d
  /\ (err = None ->
      snapshot_copy_grant_name (attrs d') = Id d
      /\ arn (attrs d') = grant_arn meta (Id d))
  /\ (is_Some err -> d' = d).
Proof.
  unfold resourceAwsRedshiftSnapshotCopyGrantUpdate, GetChange_tags.
  destruct (HasChange_tags d); [|apply read_outcome].
  destruct (call_UpdateTags _ _ _ w) as [[e|] w1]; [|apply read_outcome].
  intros [= <- <- <-]. repeat split; discriminate.
Qed.
End CallsOfDeleteAndUpdate.

(** X7 on a service that lists the grant. *)
Lemma exists_agrees_with_read_witness :
  (true = true <-> @None error = None)
  /\ exists d',
      resourceAwsRedshiftSnapshotCopyGrantRead
        (H := scripted listed) (H0 := clock 2) (H1 := plain_tags)
        1 retagged client (fresh 0)
      = Some (None, d',
              mkWorld 1 [CallDescribe (mkDescribeInput None (Some 100%Z) (Some "a"))
                                      (inr (page None [grant_a]))]).
Proof.
  exact (exists_agrees_with_read
           (H := scripted listed) (H0 := clock 2) (H1 := plain_tags)
           1 retagged client (fresh 0) true None
           (mkWorld 1 [CallDescribe (mkDescribeInput None (Some 100%Z) (Some "a"))
                                    (inr (page None [grant_a]))])
           eq_refl).
Defined.

(** X8 on a service that lists the grant: one describe call. *)
Lemma read_and_exists_only_describe_witness :
  exists l,
    [CallDescribe (mkDescribeInput None (Some 100%Z) (Some "a"))
                  (inr (page None [grant_a]))] = [] ++ l
    /\ Forall (fun c => is_mutation c = false) l
    /\ 1 <= lookups l <= 2 + 1.
Proof.
  exact (proj2 (read_and_exists_only_describe
                  (H := scripted listed) (H0 := clock 2) (H1 := plain_tags)
                  1 retagged client (fresh 0))
           true None
           (mkWorld 1 [CallDescribe (mkDescribeInput None (Some 100%Z) (Some "a"))
                                    (inr (page None [grant_a]))])
           eq_refl).
Defined.

(** X9 on a service that lists the grant at both lookups. *)
Lemma read_is_stable_witness :
  exists d1,
    resourceAwsRedshiftSnapshotCopyGrantRead
      (H := scripted listed) (H0 := clock 2) (H1 := plain_tags)
      1 retagged client (fresh 0)
    = Some (None, d1,
            mkWorld 1 [CallDescribe (mkDescribeInput None (Some 100%Z) (Some "a"))
                                    (inr (page None [grant_a]))])
    /\ resourceAwsRedshiftSnapshotCopyGrantRead
         (H := scripted listed) (H0 := clock 2) (H1 := plain_tags)
         1 d1 client
         (mkWorld 1 [CallDescribe (mkDescribeInput None (Some 100%Z) (Some "a"))
                                  (inr (page None [grant_a]))])
       = Some (None, d1,
               mkWorld 2
                 (replicate 2
                    (CallDescribe (mkDescribeInput None (Some 100%Z) (Some "a"))
                                  (inr (page None [grant_a]))))).
Proof.
  destruct (read_is_stable
              (H := scripted listed) (H0 := clock 2) (H1 := plain_tags)
              1 retagged client (fresh 0) grant_a
              (mkWorld 1 [CallDescribe (mkDescribeInput None (Some 100%Z) (Some "a"))
                                       (inr (page None [grant_a]))])
              (mkWorld 2
                 (replicate 2
                    (CallDescribe (mkDescribeInput None (Some 100%Z) (Some "a"))
                                  (inr (page None [grant_a])))))
              eq_refl eq_refl) as (d1 & Hfirst & Hagain & _).
  exists d1. split; [exact Hfirst | exact Hagain].
Defined.

(** X10 on an account that accepts the new grant. *)
Lemma create_records_the_grant_witness :
  match resourceAwsRedshiftSnapshotCopyGrantCreate
          (H := account client) (H0 := clock 2) (H1 := plain_tags)
          1 planned client (fresh [grant_b]) with
  | Some (err, d', w') =>
      Id d' = "a"
      /\ (err = None ->
          arn (attrs d')
          = "arn:aws:redshift:us-east-1:123456789012:snapshotcopygrant:a")
  | None => False
  end.
Proof.
  destruct (resourceAwsRedshiftSnapshotCopyGrantCreate
              (H := account client) (H0 := clock 2) (H1 := plain_tags)
              1 planned client (fresh [grant_b]))
    as [[[err d'] w']|] eqn:Hrun.
  - destruct (create_records_the_grant
                (H := account client) (H0 := clock 2) (H1 := plain_tags)
                1 planned client (fresh [grant_b])
                (mkCreateOutput grant_a) [grant_b; grant_a] err d' w'
                eq_refl Hrun) as (Hid & _ & _ & Hok).
    split; [exact Hid|]. intros Hnil. exact (proj2 (Hok Hnil)).
  - vm_compute in Hrun. discriminate Hrun.
Defined.

(** X11 on an account that holds the grant to delete. *)
Lemma delete_calls_once_witness :
  exists r l,
    [CallDelete (mkDeleteInput (Some "a")) None;
     CallDescribe (mkDescribeInput None (Some 100%Z) (Some "a"))
                  (inl (AwsError ErrCodeSnapshotCopyGrantNotFoundFault "a"))]
    = [] ++ CallDelete (mkDeleteInput (Some "a")) r :: l
    /\ Forall (fun c => is_mutation c = false) l
    /\ (is_Some r -> l = [])
    /\ (r = None -> 1 <= lookups l <= 2 + 1).
Proof.
  exact (delete_calls_once (H := account client) (H0 := clock 2)
           1 retagged client (fresh [grant_b; grant_a]) None
           (mkWorld [grant_b]
              [CallDelete (mkDeleteInput (Some "a")) None;
               CallDescribe (mkDescribeInput None (Some 100%Z) (Some "a"))
                            (inl (AwsError ErrCodeSnapshotCopyGrantNotFoundFault "a"))])
           eq_refl).
Defined.

(** X12 on an account of two grants, one of them retagged. *)
Lemma update_outcome_witness :
  match resourceAwsRedshiftSnapshotCopyGrantUpdate
          (H := account client) (H0 := clock 2) (H1 := plain_tags)
          1 retagged client (fresh [grant_b; mkGrant (Some "key-1") "a" []]) with
  | Some (err, d', w') =>
      Id d' = "a"
      /\ prior d' = prior retagged
      /\ (err = None ->
          snapshot_copy_grant_name (attrs d') = "a"
          /\ arn (attrs d')
             = "arn:aws:redshift:us-east-1:123456789012:snapshotcopygrant:a")
      /\ (is_Some err -> d' = retagged)
  | None => False
  end.
Proof.
  destruct (resourceAwsRedshiftSnapshotCopyGrantUpdate
              (H := account client) (H0 := clock 2) (H1 := plain_tags)
              1 retagged client (fresh [grant_b; mkGrant (Some "key-1") "a" []]))
    as [[[err d'] w']|] eqn:Hrun.
  - exact (update_outcome
             (H := account client) (H0 := clock 2) (H1 := plain_tags)
             1 retagged client (fresh [grant_b; mkGrant (Some "key-1") "a" []])
             err d' w' Hrun).
  - vm_compute in Hrun. discriminate Hrun.
Defined.
